(** * Fleet management core: occupancy manager, robot state machine, dispatcher

    Shallow embedding of
    - [src/controllers/traffic_manager.py]  (class TrafficManager),
    - [src/models/robot.py]                  (class Robot),
    - [src/controllers/fleet_manager.py]     (class FleetManager).

    Vertex identifiers are Python ints ([Z]); robot identifiers are Python
    strings ([string]); positions, speeds, the battery level and [dt] are
    Python floats, modelled as exact rationals ([Q]).  A Python [None] is
    [None] of an [option].  A raised exception is [None] of the result of
    the operation that raises it. *)

From Stdlib Require Import QArith Qabs Qminmax Lia Lqa Sorted.
From stdpp Require Import base gmap list strings.

Open Scope Q_scope.

(** ** TrafficManager *)

(** [lane_occupancy : dict[(int,int), str]] and
    [vertex_occupancy : dict[int, str]]. *)
Record Traffic := mkTraffic {
  lane_occupancy : gmap (Z * Z) string;
  vertex_occupancy : gmap Z string
}.

(** [TrafficManager.register_lane_usage]: returns the new tables and the
    boolean result. *)
Definition register_lane_usage (tm : Traffic) (robot_id : string)
    (start_vertex end_vertex : Z) : Traffic * bool :=
  let lane := (start_vertex, end_vertex) in
  match lane_occupancy tm !! lane with
  | Some holder =>
      if bool_decide (holder <> robot_id) then (tm, false)
      else (mkTraffic (<[lane := robot_id]> (lane_occupancy tm))
                      (<[start_vertex := robot_id]> (vertex_occupancy tm)), true)
  | None =>
      (mkTraffic (<[lane := robot_id]> (lane_occupancy tm))
                 (<[start_vertex := robot_id]> (vertex_occupancy tm)), true)
  end.

(** [TrafficManager.release_lane]. *)
Definition release_lane (tm : Traffic) (robot_id : string)
    (start_vertex end_vertex : Z) : Traffic * bool :=
  let lane := (start_vertex, end_vertex) in
  match lane_occupancy tm !! lane with
  | Some holder =>
      if bool_decide (holder = robot_id) then
        let vo :=
          match vertex_occupancy tm !! start_vertex with
          | Some vh => if bool_decide (vh = robot_id)
                       then delete start_vertex (vertex_occupancy tm)
                       else vertex_occupancy tm
          | None => vertex_occupancy tm
          end in
        (mkTraffic (delete lane (lane_occupancy tm)) vo, true)
      else (tm, false)
  | None => (tm, false)
  end.

(** [TrafficManager.reset]. *)
Definition reset (tm : Traffic) : Traffic := mkTraffic ∅ ∅.

(** ** Robot *)

(** [Robot.STATES]. *)
Inductive RState := IDLE | MOVING | WAITING | CHARGING | COMPLETED.

#[global] Instance RState_eq_dec : EqDecision RState.
Proof. solve_decision. Defined.

(** The fields of [Robot] that the core reads or writes (the colour, the
    animation handle and [last_update_time] are presentation-only). *)
Record Robot := mkRobot {
  rid : string;
  position : Q * Q;
  current_vertex : option Z;
  destination : option Z;
  path : list Z;
  next_vertex : option Z;
  state : RState;
  speed : Q;
  battery : Q
}.

Definition set_position (r : Robot) p :=
  mkRobot (rid r) p (current_vertex r) (destination r) (path r)
          (next_vertex r) (state r) (speed r) (battery r).
Definition set_current_vertex (r : Robot) v :=
  mkRobot (rid r) (position r) v (destination r) (path r)
          (next_vertex r) (state r) (speed r) (battery r).
Definition set_destination_field (r : Robot) d :=
  mkRobot (rid r) (position r) (current_vertex r) d (path r)
          (next_vertex r) (state r) (speed r) (battery r).
Definition set_path (r : Robot) p :=
  mkRobot (rid r) (position r) (current_vertex r) (destination r) p
          (next_vertex r) (state r) (speed r) (battery r).
Definition set_next_vertex (r : Robot) n :=
  mkRobot (rid r) (position r) (current_vertex r) (destination r) (path r)
          n (state r) (speed r) (battery r).
Definition set_state (r : Robot) s :=
  mkRobot (rid r) (position r) (current_vertex r) (destination r) (path r)
          (next_vertex r) s (speed r) (battery r).
Definition set_battery (r : Robot) b :=
  mkRobot (rid r) (position r) (current_vertex r) (destination r) (path r)
          (next_vertex r) (state r) (speed r) b.

(** [Robot.__init__]: speed 0.05, battery 100, state IDLE, no task. *)
Definition new_robot (robot_id : string) (pos : Q * Q) (v : option Z) : Robot :=
  mkRobot robot_id pos v None [] None IDLE (5 # 100) 100.

(** Python's [max(a, b)] and [min(a, b)] (the first argument is returned
    unless the second is strictly larger, resp. smaller). *)
Definition Qltb (a b : Q) : bool := negb (Qle_bool b a).
Definition py_max (a b : Q) : Q := if Qltb a b then b else a.
Definition py_min (a b : Q) : Q := if Qltb b a then b else a.

(** Python truthiness of [self.next_vertex] (an int or None): [None] and
    [0] are falsy. *)
Definition py_truthy_vertex (v : option Z) : bool :=
  match v with
  | None => false
  | Some z => negb (Z.eqb z 0)
  end.

(** [lane in occupancy] / [occupancy[lane]] for the tuple
    [(self.current_vertex, self.next_vertex)]: a tuple with a [None] is
    never a key (keys are registered only with two ints). *)
Definition lane_lookup (occ : gmap (Z * Z) string) (a b : option Z) : option string :=
  match a, b with
  | Some x, Some y => occ !! (x, y)
  | _, _ => None
  end.

(** [Robot.set_destination]. *)
Definition set_destination (r : Robot) (dest : Z) (p : list Z) : Robot :=
  let r := set_path (set_destination_field r (Some dest)) p in
  match p with
  | _ :: n :: _ => set_state (set_next_vertex r (Some n)) MOVING
  | [_] => set_state r COMPLETED
  | [] => set_state r IDLE
  end.

(** [Robot.start_charging]. *)
Definition start_charging (r : Robot) : Robot := set_state r CHARGING.

(** [Robot.cancel_task]. *)
Definition cancel_robot_task (r : Robot) : Robot :=
  set_state (set_next_vertex (set_path (set_destination_field r None) []) None) IDLE.

(** The dict returned by [Robot.update]: the key ["state"] is always
    present, the others are optional. *)
Record UpdateInfo := mkInfo {
  i_state : RState;
  i_battery : option Q;
  i_position : option (Q * Q);
  i_current_vertex : option Z
}.

Definition info_state (s : RState) : UpdateInfo := mkInfo s None None None.

Section RobotUpdate.

(** [np.linalg.norm] of a 2D vector (a float function; the theorems below
    hold whatever it computes unless they say otherwise). *)
Variable norm : Q -> Q -> Q.

(** The MOVING branch of [Robot.update] from the line
    [lane = (self.current_vertex, self.next_vertex)] on, once
    [self.next_vertex = n]. [None]: [KeyError] on [vertex_positions[n]] or
    [IndexError] on [self.path.pop(0)]. *)
Definition move_body (dt : Q) (vertex_positions : gmap Z (Q * Q))
    (occ : gmap (Z * Z) string) (r : Robot) (n : Z) : option (Robot * UpdateInfo) :=
  let r := set_next_vertex r (Some n) in
  let occupied :=
    match lane_lookup occ (current_vertex r) (Some n) with
    | Some holder => bool_decide (holder <> rid r)
    | None => false
    end in
  if occupied then Some (set_state r WAITING, info_state WAITING)
  else
    match vertex_positions !! n with
    | None => None
    | Some next_pos =>
        let current_pos := position r in
        let dx := fst next_pos - fst current_pos in
        let dy := snd next_pos - snd current_pos in
        let distance := norm dx dy in
        if Qltb distance (speed r * dt) then
          let r := set_current_vertex (set_position r next_pos) (Some n) in
          match path r with
          | [] => None
          | _ :: rest =>
              let r := set_path r rest in
              let r := match rest with
                       | h :: _ => set_next_vertex r (Some h)
                       | [] => set_state (set_next_vertex r None) COMPLETED
                       end in
              Some (r, mkInfo (state r) None (Some (position r)) (Some n))
          end
        else
          let r :=
            if Qltb 0 distance then
              set_position r (fst current_pos + dx / distance * speed r * dt,
                              snd current_pos + dy / distance * speed r * dt)
            else r in
          Some (r, mkInfo (state r) None (Some (position r)) None)
    end.

(** [Robot.update(dt, vertex_positions, current_lane_occupancy)]. *)
Definition robot_update (dt : Q) (vertex_positions : gmap Z (Q * Q))
    (occ : gmap (Z * Z) string) (r0 : Robot) : option (Robot * UpdateInfo) :=
  let r := set_battery r0 (py_max 0 (battery r0 - (1 # 100) * dt)) in
  match state r with
  | IDLE | COMPLETED => Some (r, info_state (state r))
  | CHARGING =>
      let b := py_min 100 (battery r + (1 # 10) * dt) in
      let r := set_battery r b in
      let r := if Qle_bool 100 b then set_state r IDLE else r in
      Some (r, mkInfo (state r) (Some b) None None)
  | WAITING =>
      let free :=
        match lane_lookup occ (current_vertex r) (next_vertex r) with
        | None => true
        | Some holder => bool_decide (holder = rid r)
        end in
      let r := if free then set_state r MOVING else r in
      Some (r, info_state (state r))
  | MOVING =>
      if py_truthy_vertex (next_vertex r) then
        match next_vertex r with
        | Some n => move_body dt vertex_positions occ r n
        | None => None (* excluded by the truthiness test *)
        end
      else
        match path r with
        | [] => Some (set_state r COMPLETED, info_state COMPLETED)
        | _ :: rest =>
            let r := set_path r rest in
            match rest with
            | [] => Some (set_state r COMPLETED, info_state COMPLETED)
            | h :: _ => move_body dt vertex_positions occ r h
            end
        end
  end.

End RobotUpdate.

(** ** FleetManager *)

(** A task record [{"destination", "path", "start_time"}]. *)
Record Task := mkTask {
  t_destination : Z;
  t_path : list Z;
  t_start_time : Q
}.

(** [self.robots] is a Python dict: insertion-ordered, iterated in that
    order by [update_robots]; an assignment to an existing key keeps its
    place. It is an association list with unique keys. *)
Fixpoint dict_get {A} (l : list (string * A)) (k : string) : option A :=
  match l with
  | [] => None
  | (k', v) :: l' => if String.eqb k k' then Some v else dict_get l' k
  end.

Fixpoint dict_set {A} (l : list (string * A)) (k : string) (v : A) : list (string * A) :=
  match l with
  | [] => [(k, v)]
  | (k', v') :: l' => if String.eqb k k' then (k', v) :: l' else (k', v') :: dict_set l' k v
  end.

Fixpoint dict_del {A} (l : list (string * A)) (k : string) : list (string * A) :=
  match l with
  | [] => []
  | (k', v') :: l' => if String.eqb k k' then l' else (k', v') :: dict_del l' k
  end.

Record Fleet := mkFleet {
  robots : list (string * Robot);
  tasks : gmap string Task
}.

(** [FleetManager.add_robot]: [self.robots[robot.id] = robot]. *)
Definition add_robot (f : Fleet) (r : Robot) : Fleet :=
  mkFleet (dict_set (robots f) (rid r) r) (tasks f).

(** [FleetManager.remove_robot]. *)
Definition remove_robot (f : Fleet) (robot_id : string) : Fleet * bool :=
  match dict_get (robots f) robot_id with
  | None => (f, false)
  | Some _ => (mkFleet (dict_del (robots f) robot_id) (delete robot_id (tasks f)), true)
  end.

(** [FleetManager.cancel_task]. *)
Definition cancel_task (f : Fleet) (robot_id : string) : Fleet * bool :=
  match dict_get (robots f) robot_id with
  | None => (f, false)
  | Some r =>
      (mkFleet (dict_set (robots f) robot_id (cancel_robot_task r))
               (delete robot_id (tasks f)), true)
  end.

Section Dispatcher.

(** [np.linalg.norm] (see [robot_update]). *)
Variable norm : Q -> Q -> Q.
(** [{v_id: data['pos'] for v_id, data in self.nav_graph.G.nodes(data=True)}]. *)
Variable vertex_positions : gmap Z (Q * Q).
(** [self.nav_graph.get_chargers()]. *)
Variable chargers : list Z.
(** [NavGraph.get_path(start, end)]: networkx's weighted shortest path, or
    [None] when there is no path ([NetworkXNoPath]). *)
Variable get_path : option Z -> Z -> option (list Z).

(** [FleetManager.assign_task(robot_id, destination_vertex)]; [now] is the
    value of [time.time()] stored as the start time. *)
Definition assign_task (f : Fleet) (robot_id : string) (destination_vertex : Z)
    (now : Q) : Fleet * bool :=
  match dict_get (robots f) robot_id with
  | None => (f, false)
  | Some r =>
      if bool_decide (current_vertex r = Some destination_vertex) then (f, true)
      else
        match get_path (current_vertex r) destination_vertex with
        | None | Some [] => (f, false)
        | Some p =>
            (mkFleet (dict_set (robots f) robot_id (set_destination r destination_vertex p))
                     (<[robot_id := mkTask destination_vertex p now]> (tasks f)), true)
        end
  end.

(** The body of the loop of [FleetManager.update_robots] for one robot.
    [tm] is the traffic manager as this iteration sees it: the dict passed
    to [robot.update] is the manager's own [lane_occupancy], so the lanes
    registered by robots earlier in the same loop are visible. *)
Definition tick_one (dt : Q) (tm : Traffic) (robot_id : string) (r : Robot)
    : option (Robot * UpdateInfo * Traffic) :=
  let pre_vertex := current_vertex r in
  match robot_update norm dt vertex_positions (lane_occupancy tm) r with
  | None => None
  | Some (r1, info) =>
      let r2 :=
        match i_current_vertex info with
        | Some cv =>
            if bool_decide (Some cv <> pre_vertex)
               && bool_decide (destination r1 = Some cv)
               && bool_decide (cv ∈ chargers)
               && Qltb (battery r1) 50
            then start_charging r1 else r1
        | None => r1
        end in
      let tm' :=
        match current_vertex r2, next_vertex r2 with
        | Some a, Some b => fst (register_lane_usage tm robot_id a b)
        | _, _ => tm
        end in
      Some (r2, info, tm')
  end.

Fixpoint update_robots_loop (dt : Q) (tm : Traffic) (rs : list (string * Robot))
    : option (list (string * Robot) * list (string * UpdateInfo) * Traffic) :=
  match rs with
  | [] => Some ([], [], tm)
  | (robot_id, r) :: rs' =>
      match tick_one dt tm robot_id r with
      | None => None
      | Some (r', info, tm') =>
          match update_robots_loop dt tm' rs' with
          | None => None
          | Some (rs'', infos, tm'') => Some ((robot_id, r') :: rs'', (robot_id, info) :: infos, tm'')
          end
      end
  end.

(** [FleetManager.update_robots(dt, traffic_manager)]: the new fleet, the
    new traffic tables and the returned [updates] dict. The loop adds,
    removes and rebinds no entry of [self.tasks]. The ["path"] list of a
    task record is, in the code, the very list object [assign_task] handed
    to [robot.set_destination], so the [path.pop(0)] of [Robot.update]
    shortens it as well; object identity is not modelled, and [t_path]
    keeps the path as assigned: it stands for the task's path at
    assignment time only. *)
Definition update_robots (dt : Q) (f : Fleet) (tm : Traffic)
    : option (Fleet * Traffic * list (string * UpdateInfo)) :=
  match update_robots_loop dt tm (robots f) with
  | None => None
  | Some (rs, infos, tm') => Some (mkFleet rs (tasks f), tm', infos)
  end.

(** The traffic manager as each iteration of the loop of
    [FleetManager.update_robots] sees it, one per robot in registry order:
    the tables at the start of the tick plus the lanes registered by the
    robots before it in the same loop. *)
Fixpoint tables_seen (dt : Q) (tm : Traffic) (rs : list (string * Robot)) : list Traffic :=
  match rs with
  | [] => []
  | (robot_id, r) :: rs' =>
      tm :: match tick_one dt tm robot_id r with
            | Some (_, _, tm') => tables_seen dt tm' rs'
            | None => []
            end
  end.

(** The operations the application performs on the shared state. *)
Inductive Op :=
  | OpRegister (robot_id : string) (a b : Z)
  | OpRelease (robot_id : string) (a b : Z)
  | OpReset
  | OpTick (dt : Q)
  | OpAdd (r : Robot)
  | OpRemove (robot_id : string)
  | OpAssign (robot_id : string) (dest : Z) (now : Q)
  | OpCancel (robot_id : string).

(** One operation on (fleet, traffic); [None] when it raises. *)
Definition step (s : Fleet * Traffic) (o : Op) : option (Fleet * Traffic) :=
  let (f, tm) := s in
  match o with
  | OpRegister i a b => Some (f, fst (register_lane_usage tm i a b))
  | OpRelease i a b => Some (f, fst (release_lane tm i a b))
  | OpReset => Some (f, reset tm)
  | OpTick dt =>
      match update_robots dt f tm with
      | Some (f', tm', _) => Some (f', tm')
      | None => None
      end
  | OpAdd r => Some (add_robot f r, tm)
  | OpRemove i => Some (fst (remove_robot f i), tm)
  | OpAssign i d now => Some (fst (assign_task f i d now), tm)
  | OpCancel i => Some (fst (cancel_task f i), tm)
  end.

(** Run a sequence of operations from a state. *)
Fixpoint run (s : Fleet * Traffic) (os : list Op) : option (Fleet * Traffic) :=
  match os with
  | [] => Some s
  | o :: os' => match step s o with None => None | Some s' => run s' os' end
  end.

End Dispatcher.

Definition empty_fleet : Fleet := mkFleet [] ∅.
Definition empty_traffic : Traffic := mkTraffic ∅ ∅.

(** ** Concrete inputs *)

(** A norm that agrees with the Euclidean norm on axis-parallel vectors;
    every concrete graph below is laid out on the x-axis. *)
Definition axis_norm (dx dy : Q) : Q := Qabs dx + Qabs dy.

(** The 3-vertex line graph 0 -> 1 -> 2 of the spec's scenario A, lanes of
    length 0.01, vertex 1 a charger. *)
Definition line_positions : gmap Z (Q * Q) :=
  <[0%Z := (0, 0)]> (<[1%Z := (1 # 100, 0)]> (<[2%Z := (2 # 100, 0)]> ∅)).
Definition line_chargers : list Z := [1%Z].

(** Shortest paths of the line graph: [a; a+1; ...; e] when [a <= e]. *)
Definition line_get_path (s : option Z) (e : Z) : option (list Z) :=
  match s with
  | Some a =>
      if bool_decide (0 <= a /\ a <= e /\ e <= 2)%Z
      then Some (map (fun k => a + Z.of_nat k)%Z (seq 0 (Z.to_nat (e - a) + 1)))
      else None
  | None => None
  end.

(** ** Auxiliary definitions for the properties *)

(** A lane is available to [robot_id] when unheld or held by itself. *)
Definition lane_available (tm : Traffic) (robot_id : string) (a b : Z) : Prop :=
  match lane_occupancy tm !! (a, b) with
  | None => True
  | Some h => h = robot_id
  end.

(** The invariant of the spec's data model: every robot holds at most one
    lane entry and at most one vertex entry. *)
Definition one_slot_per_robot (tm : Traffic) : Prop :=
  (forall l1 l2 r, lane_occupancy tm !! l1 = Some r ->
                   lane_occupancy tm !! l2 = Some r -> l1 = l2) /\
  (forall v1 v2 r, vertex_occupancy tm !! v1 = Some r ->
                   vertex_occupancy tm !! v2 = Some r -> v1 = v2).

(** The spec's scenario A as a sequence of application calls: spawn robot
    "a" at vertex 0, send it to vertex 2, run two ticks of one second. *)
Definition scenario_a_ops : list Op :=
  [OpAdd (new_robot "a" (0, 0) (Some 0%Z)); OpAssign "a" 2%Z 0; OpTick 1; OpTick 1].

Definition run_line (os : list Op) : option (Fleet * Traffic) :=
  run axis_norm line_positions line_chargers line_get_path (empty_fleet, empty_traffic) os.

(** A robot with battery 40 on its way from vertex 0 to vertex 2 of the
    line graph, vertex 1 being a charger. *)
Definition low_robot : Robot := set_battery (new_robot "b" (0, 0) (Some 0%Z)) 40.

Definition charger_ops : list Op := [OpAdd low_robot; OpAssign "b" 2%Z 0; OpTick 1].

(** Robot "a" bound for vertex 2 and [low_robot] bound for the charger
    vertex 1, both starting on vertex 0. *)
Definition two_to_charger_ops : list Op :=
  [OpAdd (new_robot "a" (0, 0) (Some 0%Z)); OpAdd low_robot; OpAssign "a" 2%Z 0; OpAssign "b" 1%Z 0].

(** The condition under which the loop body calls [start_charging]. *)
Definition charges_on_arrival (ch : list Z) (pre : Robot) (r1 : Robot)
    (info : UpdateInfo) : Prop :=
  exists cv, i_current_vertex info = Some cv /\ Some cv <> current_vertex pre /\
    destination r1 = Some cv /\ cv ∈ ch /\ battery r1 < 50.

(** A robot whose id is already registered. *)
Definition robot_a0 : Robot := new_robot "a" (0, 0) (Some 0%Z).
Definition robot_a2 : Robot := new_robot "a" (2 # 100, 0) (Some 2%Z).

(** The spec's scenario D: the line graph has no lane back from 2 to 0. *)
Definition robot_at_2 : Robot := new_robot "c" (2 # 100, 0) (Some 2%Z).

(** Consecutive ticks of [update_robots] with the given time deltas. *)
Fixpoint run_ticks norm vp ch (dts : list Q) (f : Fleet) (tm : Traffic)
    : option (Fleet * Traffic) :=
  match dts with
  | [] => Some (f, tm)
  | dt :: dts' =>
      match update_robots norm vp ch dt f tm with
      | None => None
      | Some (f', tm', _) => run_ticks norm vp ch dts' f' tm'
      end
  end.

(** A robot at vertex 0 with an empty battery. *)
Definition empty_robot : Robot := set_battery robot_a0 0.

(** A charging robot at vertex 0 of the line graph, battery 60. *)
Definition charging_robot : Robot :=
  set_state (set_battery (new_robot "d" (0, 0) (Some 0%Z)) 60) CHARGING.

(** The battery drain that opens [Robot.update]. *)
Definition drain (dt : Q) (r : Robot) : Robot :=
  set_battery r (py_max 0 (battery r - (1 # 100) * dt)).

(** A MOVING robot at vertex 1 of the line graph heading for [n] along
    [p]. *)
Definition robot_toward (p : list Z) (n : Z) : Robot :=
  set_state (set_next_vertex (set_path (new_robot "e" (1 # 100, 0) (Some 1%Z)) p) (Some n)) MOVING.

(** The result of a tick with the robot's [next_vertex] field blanked. *)
Definition without_next (res : option (Robot * UpdateInfo)) : option (Robot * UpdateInfo) :=
  option_map (fun x => (set_next_vertex (fst x) None, snd x)) res.

(** Three robots with distinct ids: "a" and "b" on vertex 0 heading for
    vertex 1, "c" on vertex 1 heading for vertex 2. *)
Definition three_robots : list (string * Robot) :=
  [("a"%string, set_next_vertex (new_robot "a" (0, 0) (Some 0%Z)) (Some 1%Z));
   ("b"%string, set_next_vertex (new_robot "b" (0, 0) (Some 0%Z)) (Some 1%Z));
   ("c"%string, set_next_vertex (new_robot "c" (1 # 100, 0) (Some 1%Z)) (Some 2%Z))].

(** ** Further operations of the traffic manager, fleet manager and graph *)

(** Python truthiness of an optional robot id: [None] and [""] are falsy. *)
Definition py_truthy_id (robot_id : option string) : option string :=
  match robot_id with
  | Some i => if String.eqb i "" then None else Some i
  | None => None
  end.

(** [TrafficManager.is_lane_free(start_vertex, end_vertex, robot_id=None)]. *)
Definition is_lane_free (tm : Traffic) (a b : Z) (robot_id : option string) : bool :=
  match lane_occupancy tm !! (a, b) with
  | None => true
  | Some h =>
      match py_truthy_id robot_id with
      | Some i => String.eqb h i
      | None => false
      end
  end.

(** [TrafficManager.is_vertex_free(vertex_id, robot_id=None)]. *)
Definition is_vertex_free (tm : Traffic) (v : Z) (robot_id : option string) : bool :=
  match vertex_occupancy tm !! v with
  | None => true
  | Some h =>
      match py_truthy_id robot_id with
      | Some i => String.eqb h i
      | None => false
      end
  end.

(** The loop of [TrafficManager.update_from_robot_positions] over
    [robots.items()], from the tables built so far. *)
Fixpoint positions_loop (tm : Traffic) (rs : list (string * Robot)) : Traffic :=
  match rs with
  | [] => tm
  | (robot_id, r) :: rs' =>
      let tm' :=
        match current_vertex r with
        | Some c =>
            let vo := <[c := robot_id]> (vertex_occupancy tm) in
            match next_vertex r with
            | Some n => mkTraffic (<[(c, n) := robot_id]> (lane_occupancy tm)) vo
            | None => mkTraffic (lane_occupancy tm) vo
            end
        | None => tm
        end in
      positions_loop tm' rs'
  end.

(** [TrafficManager.update_from_robot_positions(robots)]: both tables are
    cleared and rebuilt. *)
Definition update_from_robot_positions (tm : Traffic) (rs : list (string * Robot)) : Traffic :=
  positions_loop (mkTraffic ∅ ∅) rs.

(** Square of the Euclidean distance of two points. A test
    [sqrt(d2) <= t] is [0 <= t /\ d2 <= t * t] and [sqrt(d2) < t] is
    [0 < t /\ d2 < t * t]; [sqrt] is strictly increasing, so comparing two
    distances is comparing their squares. *)
Definition dist2 (p q : Q * Q) : Q :=
  (fst p - fst q) * (fst p - fst q) + (snd p - snd q) * (snd p - snd q).

(** [FleetManager.get_robot_by_position(position, threshold)]: the first
    robot in registry order with [distance <= threshold]. *)
Fixpoint get_robot_by_position (rs : list (string * Robot)) (p : Q * Q) (threshold : Q)
    : option string :=
  match rs with
  | [] => None
  | (robot_id, r) :: rs' =>
      if Qle_bool 0 threshold && Qle_bool (dist2 (position r) p) (threshold * threshold)
      then Some robot_id
      else get_robot_by_position rs' p threshold
  end.

(** The loop of [NavGraph.get_vertex_id_by_position] over the nodes in
    graph order; [best] is [(closest_vertex, min_dist**2)], [None] while
    [min_dist] is [inf]. *)
Fixpoint closest_loop (nodes : list (Z * (Q * Q))) (p : Q * Q) (threshold : Q)
    (best : option (Z * Q)) : option (Z * Q) :=
  match nodes with
  | [] => best
  | (v, vp) :: nodes' =>
      let d := dist2 vp p in
      let closer := match best with None => true | Some (_, m) => Qltb d m end in
      let best' :=
        if closer && Qltb 0 threshold && Qltb d (threshold * threshold)
        then Some (v, d) else best in
      closest_loop nodes' p threshold best'
  end.

(** [NavGraph.get_vertex_id_by_position(position, threshold)]. *)
Definition get_vertex_id_by_position (nodes : list (Z * (Q * Q))) (p : Q * Q)
    (threshold : Q) : option Z :=
  option_map fst (closest_loop nodes p threshold None).

(** The vertex loop of [NavGraph.load_graph]: the indices [i] (from [start])
    of the vertices whose ["is_charger"] attribute is truthy, in order. A
    vertex is [(x, y, is_charger)]. *)
Fixpoint chargers_from (start : Z) (vertices : list (Q * Q * bool)) : list Z :=
  match vertices with
  | [] => []
  | (_, _, c) :: vs =>
      if c then start :: chargers_from (start + 1)%Z vs else chargers_from (start + 1)%Z vs
  end.

Definition load_chargers (vertices : list (Q * Q * bool)) : list Z := chargers_from 0%Z vertices.

(** No entry of either table is held by [k]. *)
Definition holds_nothing (tm : Traffic) (k : string) : Prop :=
  (forall l, lane_occupancy tm !! l <> Some k) /\ (forall v, vertex_occupancy tm !! v <> Some k).

(** [distance <= threshold] in [get_robot_by_position]. *)
Definition robot_within (p : Q * Q) (threshold : Q) (r : Robot) : Prop :=
  0 <= threshold /\ dist2 (position r) p <= threshold * threshold.

(** [distance < threshold] in [get_vertex_id_by_position]. *)
Definition vertex_within (p : Q * Q) (threshold : Q) (vp : Q * Q) : Prop :=
  0 < threshold /\ dist2 vp p < threshold * threshold.

(** * Properties *)

(** ** Occupancy manager *)

Lemma register_lane_usage_available tm i a b :
  lane_available tm i a b ->
  register_lane_usage tm i a b =
    (mkTraffic (<[(a, b) := i]> (lane_occupancy tm)) (<[a := i]> (vertex_occupancy tm)), true).
Proof.
  unfold lane_available, register_lane_usage; simpl.
  destruct (lane_occupancy tm !! (a, b)) as [h|]; [|done].
  intros ->. rewrite bool_decide_false; [done|]. tauto.
Qed.

Lemma register_lane_usage_taken tm i a b h :
  lane_occupancy tm !! (a, b) = Some h -> h <> i ->
  register_lane_usage tm i a b = (tm, false).
Proof.
  intros Hl Hne. unfold register_lane_usage; simpl. rewrite Hl.
  rewrite bool_decide_true; done.
Qed.

(** A lane entry of [r] survives a registration by anyone. *)
Lemma register_lane_usage_keeps_lane tm i a b l r :
  lane_occupancy tm !! l = Some r ->
  lane_occupancy (fst (register_lane_usage tm i a b)) !! l = Some r.
Proof.
  intros Hl. destruct (lane_occupancy tm !! (a, b)) as [h|] eqn:Hab.
  - destruct (decide (h = i)) as [->|Hne].
    + rewrite register_lane_usage_available by (unfold lane_available; rewrite Hab; done).
      simpl. destruct (decide ((a, b) = l)) as [<-|Hne'].
      * rewrite lookup_insert_eq. congruence.
      * rewrite lookup_insert_ne; done.
    + rewrite (register_lane_usage_taken _ _ _ _ h); done.
  - rewrite register_lane_usage_available by (unfold lane_available; rewrite Hab; done).
    simpl. destruct (decide ((a, b) = l)) as [<-|Hne'].
    + congruence.
    + rewrite lookup_insert_ne; done.
Qed.

(** C3: [register_lane_usage] succeeds and records the lane and its source
    vertex for the caller when the lane is unheld or already the caller's;
    it fails and changes nothing when another robot holds the lane; and a
    second identical call leaves the tables as the first one left them. *)
Theorem register_lane_usage_spec (tm : Traffic) (robot_id : string) (a b : Z) :
  (lane_available tm robot_id a b ->
     register_lane_usage tm robot_id a b =
       (mkTraffic (<[(a, b) := robot_id]> (lane_occupancy tm))
                  (<[a := robot_id]> (vertex_occupancy tm)), true)) /\
  (forall h, lane_occupancy tm !! (a, b) = Some h -> h <> robot_id ->
     register_lane_usage tm robot_id a b = (tm, false)) /\
  register_lane_usage (fst (register_lane_usage tm robot_id a b)) robot_id a b =
    (fst (register_lane_usage tm robot_id a b), snd (register_lane_usage tm robot_id a b)).
Proof.
  split; [apply register_lane_usage_available|].
  split; [intros h; apply register_lane_usage_taken|].
  destruct (lane_occupancy tm !! (a, b)) as [h|] eqn:Hab.
  - destruct (decide (h = robot_id)) as [->|Hne].
    + rewrite (register_lane_usage_available tm) by (unfold lane_available; rewrite Hab; done).
      simpl. rewrite register_lane_usage_available
        by (unfold lane_available; simpl; rewrite lookup_insert_eq; done).
      simpl. rewrite !insert_insert_eq. done.
    + rewrite (register_lane_usage_taken tm _ _ _ h); simpl; [|done..].
      rewrite (register_lane_usage_taken tm _ _ _ h); done.
  - rewrite (register_lane_usage_available tm) by (unfold lane_available; rewrite Hab; done).
    simpl. rewrite register_lane_usage_available
      by (unfold lane_available; simpl; rewrite lookup_insert_eq; done).
    simpl. rewrite !insert_insert_eq. done.
Qed.

(** ** Occupancy invariant *)

Lemma tick_one_keeps_lane norm vp ch dt tm i r r' info tm' l h :
  tick_one norm vp ch dt tm i r = Some (r', info, tm') ->
  lane_occupancy tm !! l = Some h -> lane_occupancy tm' !! l = Some h.
Proof.
  unfold tick_one. intros Ht Hl.
  destruct (robot_update _ _ _ _ _) as [[r1 info1]|]; [|discriminate].
  injection Ht as _ _ <-.
  repeat case_match; auto using register_lane_usage_keeps_lane.
Qed.

Lemma update_robots_loop_keeps_lane norm vp ch dt rs tm rs' infos tm' l h :
  update_robots_loop norm vp ch dt tm rs = Some (rs', infos, tm') ->
  lane_occupancy tm !! l = Some h -> lane_occupancy tm' !! l = Some h.
Proof.
  revert tm rs' infos. induction rs as [|[i r] rs IH]; intros tm rs' infos; simpl.
  - intros [= _ _ <-]. done.
  - destruct (tick_one _ _ _ _ _ _ _) as [[[r1 info1] tm1]|] eqn:Ht; [|discriminate].
    destruct (update_robots_loop _ _ _ _ _ _) as [[[rs2 infos2] tm2]|] eqn:Hl; [|discriminate].
    intros [= _ _ <-] Hh. eapply IH; [exact Hl|]. eapply tick_one_keeps_lane; eauto.
Qed.

Lemma release_lane_keeps_other tm i a b l h :
  lane_occupancy tm !! l = Some h -> (h <> i \/ l <> (a, b)) ->
  lane_occupancy (fst (release_lane tm i a b)) !! l = Some h.
Proof.
  intros Hl Hor. unfold release_lane; simpl.
  destruct (lane_occupancy tm !! (a, b)) as [h'|] eqn:Hab; [|done].
  case_bool_decide as Hh'; [|done]. simpl.
  destruct (decide (l = (a, b))) as [->|Hne].
  - exfalso. rewrite Hab in Hl. injection Hl as ->. subst. tauto.
  - rewrite lookup_delete_ne; congruence.
Qed.

(** C1 (counterexample): two ticks of the dispatcher's own loop leave robot
    "a" holding the two lanes (1,1) and (1,2) at once. *)
Lemma one_slot_per_robot_fails :
  exists s, run_line scenario_a_ops = Some s /\
    lane_occupancy (snd s) !! (1%Z, 1%Z) = Some "a"%string /\
    lane_occupancy (snd s) !! (1%Z, 2%Z) = Some "a"%string /\
    ~ one_slot_per_robot (snd s).
Proof.
  eexists. split; [vm_compute; reflexivity|].
  split; [vm_compute; reflexivity|]. split; [vm_compute; reflexivity|].
  intros [Hl _].
  assert (H : ((1%Z, 1%Z) : Z * Z) = (1%Z, 2%Z)) by (apply (Hl _ _ "a"%string); vm_compute; reflexivity).
  discriminate.
Qed.

(** C1 (amended): along any run of the application's operations, a lane
    entry held by a robot stays held by that robot until a [reset] or a
    [release_lane] of that very lane by that robot: neither another robot's
    [register_lane_usage] nor the per-tick re-registration takes it over.
    (The tables are maps, so no key ever has two holders; but nothing
    removes a robot's earlier entries, see [one_slot_per_robot_fails].) *)
Theorem lane_entry_kept_until_release norm vp ch gp
    (os : list Op) (s s' : Fleet * Traffic) (l : Z * Z) (h : string) :
  run norm vp ch gp s os = Some s' ->
  Forall (fun o => o <> OpReset /\ forall a b, o = OpRelease h a b -> l <> (a, b)) os ->
  lane_occupancy (snd s) !! l = Some h ->
  lane_occupancy (snd s') !! l = Some h.
Proof.
  revert s. induction os as [|o os IH]; intros s; simpl.
  - intros [= <-]. done.
  - intros Hrun HF Hl. inversion HF as [|? ? [Hnr Hnrel] HF']; subst.
    destruct (step _ _ _ _ s o) as [s1|] eqn:Hs; [|discriminate].
    apply (IH s1); [done|done|].
    destruct s as [f tm]. unfold step in Hs.
    destruct o; simpl in *; try (injection Hs as <-; simpl; done).
    + injection Hs as <-. simpl. apply register_lane_usage_keeps_lane. done.
    + injection Hs as <-. simpl. apply release_lane_keeps_other; [done|].
      destruct (decide (h = robot_id)) as [->|]; [right; apply (Hnrel a b); done|left; done].
    + destruct (update_robots _ _ _ _ _ _) as [[[f' tm'] infos]|] eqn:Hu; [|discriminate].
      injection Hs as <-. simpl. unfold update_robots in Hu.
      destruct (update_robots_loop _ _ _ _ _ _) as [[[rs infos'] tm'']|] eqn:Hl'; [|discriminate].
      injection Hu as _ <- _. eapply update_robots_loop_keeps_lane; eauto.
Qed.

(** Witness of [lane_entry_kept_until_release] on scenario A. *)
Lemma lane_entry_kept_until_release_witness :
  run_line (skipn 2 scenario_a_ops) <> None /\
  lane_occupancy (snd (default (empty_fleet, empty_traffic)
    (run axis_norm line_positions line_chargers line_get_path
       (default (empty_fleet, empty_traffic) (run_line (take 3 scenario_a_ops)))
       (drop 3 scenario_a_ops)))) !! (1%Z, 1%Z) = Some "a"%string.
Proof.
  split; [vm_compute; discriminate|].
  apply (lane_entry_kept_until_release axis_norm line_positions line_chargers line_get_path
           (drop 3 scenario_a_ops)
           (default (empty_fleet, empty_traffic) (run_line (take 3 scenario_a_ops)))).
  - vm_compute. reflexivity.
  - repeat constructor; discriminate.
  - vm_compute. reflexivity.
Defined.

(** ** Charging on arrival *)

(** C2 (counterexample): after one tick the robot has moved from vertex 0
    onto the charger vertex 1 with battery 39.99, yet it is not charging,
    because vertex 1 is not its destination. *)
Lemma charging_off_destination :
  exists s r, run_line charger_ops = Some s /\
    dict_get (robots (fst s)) "b" = Some r /\
    current_vertex low_robot = Some 0%Z /\ current_vertex r = Some 1%Z /\
    (1%Z ∈ line_chargers) /\ battery r < 50 /\ state r = MOVING.
Proof.
  do 2 eexists. split; [vm_compute; reflexivity|].
  split; [vm_compute; reflexivity|].
  split; [reflexivity|]. split; [reflexivity|].
  split; [unfold line_chargers; set_solver|].
  split; [vm_compute; reflexivity|reflexivity].
Qed.

Lemma Qltb_iff a b : Qltb a b = true <-> a < b.
Proof.
  unfold Qltb. rewrite negb_true_iff. split.
  - intros H. apply Qnot_le_lt. intros H'. apply Qle_bool_iff in H'. congruence.
  - intros H. destruct (Qle_bool b a) eqn:E; [|done].
    apply Qle_bool_iff in E. exfalso. apply (Qlt_not_le _ _ H E).
Qed.

Lemma tick_one_state norm vp ch dt tm i r r2 info tm' :
  tick_one norm vp ch dt tm i r = Some (r2, info, tm') ->
  exists r1, robot_update norm dt vp (lane_occupancy tm) r = Some (r1, info) /\
    (state r2 = CHARGING <-> state r1 = CHARGING \/ charges_on_arrival ch r r1 info).
Proof.
  unfold tick_one.
  destruct (robot_update _ _ _ _ _) as [[r1 info1]|] eqn:Hu; [|discriminate].
  intros [= <- <- _]. exists r1. split; [done|].
  unfold charges_on_arrival.
  destruct (i_current_vertex info1) as [cv|] eqn:Hcv.
  - destruct (bool_decide (Some cv <> current_vertex r) && bool_decide (destination r1 = Some cv)
              && bool_decide (cv ∈ ch) && Qltb (battery r1) 50) eqn:Hc.
    + apply andb_true_iff in Hc as [Hc Hb]. apply andb_true_iff in Hc as [Hc Hch].
      apply andb_true_iff in Hc as [Hne Hd].
      apply bool_decide_eq_true in Hne, Hd, Hch.
      apply Qltb_iff in Hb.
      simpl. split; [intros _; right; exists cv; repeat split; auto|done].
    + split; [tauto|]. intros [Hs|(cv' & Heq & Hne & Hd & Hch & Hb)]; [done|].
      injection Heq as <-. exfalso.
      rewrite !bool_decide_true in Hc by done. simpl in Hc.
      apply Qltb_iff in Hb. congruence.
  - split; [tauto|]. intros [Hs|(cv' & Heq & _)]; [done|discriminate].
Qed.

Lemma update_robots_loop_length norm vp ch dt tm rs rs' infos tm' :
  update_robots_loop norm vp ch dt tm rs = Some (rs', infos, tm') -> length rs' = length rs.
Proof.
  revert tm rs' infos tm'. induction rs as [|[i r] rs IH]; intros tm rs' infos tm'; simpl.
  - intros [= <- _ _]. done.
  - destruct (tick_one _ _ _ _ _ _ _) as [[[r1 info1] tm1]|]; [|discriminate].
    destruct (update_robots_loop _ _ _ _ _ _) as [[[rs2 infos2] tm2]|] eqn:Hl; [|discriminate].
    intros [= <- _ _]. simpl. f_equal. eapply IH. exact Hl.
Qed.

(** C2 (amended): in a tick of [update_robots], a robot ends the tick in
    CHARGING exactly when its own update (run on the lane table of that
    iteration of the loop) left it CHARGING, or when the update moved it to
    a new vertex that is its destination, is a charger, and its battery is
    then below 50; a charger vertex passed on the way does not start a
    charge. The update is the one whose dict the tick reports. *)
Theorem update_robots_charging norm vp ch (dt : Q) (f f' : Fleet) (tm tm' : Traffic)
    (infos : list (string * UpdateInfo)) :
  update_robots norm vp ch dt f tm = Some (f', tm', infos) ->
  length (robots f') = length (robots f) /\
  forall k i r, robots f !! k = Some (i, r) ->
    exists r2 tk r1 info,
      robots f' !! k = Some (i, r2) /\ infos !! k = Some (i, info) /\
      tables_seen norm vp ch dt tm (robots f) !! k = Some tk /\
      robot_update norm dt vp (lane_occupancy tk) r = Some (r1, info) /\
      (state r2 = CHARGING <-> state r1 = CHARGING \/ charges_on_arrival ch r r1 info).
Proof.
  unfold update_robots.
  destruct (update_robots_loop _ _ _ _ _ _) as [[[rs infos'] tm'']|] eqn:Hl; [|discriminate].
  intros [= <- _ <-]. simpl. split.
  { eapply update_robots_loop_length. exact Hl. }
  clear tm'. revert tm rs infos' tm'' Hl.
  induction (robots f) as [|[j r0] rs0 IH]; intros tm rs infos' tm'' Hl k i r Hk; simpl in Hl.
  - done.
  - destruct (tick_one _ _ _ _ _ _ _) as [[[r2 info] tm1]|] eqn:Ht; [|discriminate].
    destruct (update_robots_loop _ _ _ _ _ _) as [[[rs2 infos2] tm2]|] eqn:Hl2; [|discriminate].
    injection Hl as <- <- _. cbn. rewrite Ht. destruct k as [|k]; cbn in Hk |- *.
    + injection Hk as <- <-. destruct (tick_one_state _ _ _ _ _ _ _ _ _ _ Ht) as (r1 & Hu & Hiff).
      exists r2, tm, r1, info. done.
    + exact (IH tm1 rs2 infos2 tm2 Hl2 k i r Hk).
Qed.

(** Witness of [update_robots_charging]: robot "a" (battery 100) and
    robot "b" (battery 40) both leave vertex 0 in the same tick, "a" for
    vertex 2 and "b" for the charger vertex 1; "b" starts charging there,
    on the lane table in which "a" has just registered. *)
Lemma update_robots_charging_witness :
  let f := default empty_fleet (option_map fst (run_line two_to_charger_ops)) in
  exists f' tm' infos,
    update_robots axis_norm line_positions line_chargers 1 f empty_traffic = Some (f', tm', infos) /\
    (exists r2, dict_get (robots f') "b" = Some r2 /\ state r2 = CHARGING) /\
    length (robots f') = length (robots f) /\
    forall k i r, robots f !! k = Some (i, r) ->
      exists r2 tk r1 info,
        robots f' !! k = Some (i, r2) /\ infos !! k = Some (i, info) /\
        tables_seen axis_norm line_positions line_chargers 1 empty_traffic (robots f) !! k = Some tk /\
        robot_update axis_norm 1 line_positions (lane_occupancy tk) r = Some (r1, info) /\
        (state r2 = CHARGING <-> state r1 = CHARGING \/ charges_on_arrival line_chargers r r1 info).
Proof.
  intros f.
  destruct (update_robots axis_norm line_positions line_chargers 1 f empty_traffic)
    as [[[f' tm'] infos]|] eqn:E.
  - exists f', tm', infos. split; [reflexivity|]. split.
    + vm_compute in E. injection E as <- _ _. eexists. split; [reflexivity|reflexivity].
    + exact (update_robots_charging axis_norm line_positions line_chargers 1 f f'
               empty_traffic tm' infos E).
  - vm_compute in E. discriminate.
Defined.

(** Witness of [register_lane_usage_spec]: scenario B, robot "a2" tries the
    lane (0,1) held by "a1". *)
Lemma register_lane_usage_spec_witness :
  let tm := fst (register_lane_usage empty_traffic "a1" 0%Z 1%Z) in
  lane_occupancy tm !! (0%Z, 1%Z) = Some "a1"%string /\
  register_lane_usage tm "a2" 0%Z 1%Z = (tm, false).
Proof.
  intros tm. split; [vm_compute; reflexivity|].
  apply (proj1 (proj2 (register_lane_usage_spec tm "a2" 0%Z 1%Z)) "a1"%string).
  - vm_compute. reflexivity.
  - discriminate.
Defined.

(** ** The robot registry *)

Lemma dict_get_set_eq {A} (l : list (string * A)) k v :
  dict_get (dict_set l k v) k = Some v.
Proof.
  induction l as [|[k' v'] l IH]; simpl; [by rewrite String.eqb_refl|].
  destruct (String.eqb k k') eqn:E; simpl; rewrite E; done.
Qed.

Lemma dict_get_set_ne {A} (l : list (string * A)) k k' v :
  k <> k' -> dict_get (dict_set l k v) k' = dict_get l k'.
Proof.
  intros Hne. induction l as [|[k0 v0] l IH]; simpl.
  - destruct (String.eqb k' k) eqn:E; [apply String.eqb_eq in E; congruence|done].
  - destruct (String.eqb k k0) eqn:E; simpl.
    + apply String.eqb_eq in E as ->.
      destruct (String.eqb k' k0) eqn:E'; [apply String.eqb_eq in E'; congruence|done].
    + destruct (String.eqb k' k0); done.
Qed.

Lemma dict_get_keys {A} (l : list (string * A)) k :
  dict_get l k <> None <-> k ∈ map fst l.
Proof.
  induction l as [|[k' v'] l IH]; simpl.
  - split; [done|]. intros H. inversion H.
  - rewrite elem_of_cons. destruct (String.eqb k k') eqn:E.
    + apply String.eqb_eq in E. split; [tauto|done].
    + apply String.eqb_neq in E. rewrite <- IH. tauto.
Qed.

Lemma dict_set_keys {A} (l : list (string * A)) k v :
  k ∈ map fst l -> map fst (dict_set l k v) = map fst l.
Proof.
  induction l as [|[k' v'] l IH]; simpl; intros Hk; [inversion Hk|].
  destruct (String.eqb k k') eqn:E; simpl; [done|].
  apply String.eqb_neq in E. rewrite IH; [done|].
  apply elem_of_cons in Hk as [->|]; [done|done].
Qed.

(** C4 (counterexample): adding a second robot with the id "a" replaces the
    registered one instead of being rejected. *)
Lemma add_robot_duplicate_replaces :
  dict_get (robots (add_robot (add_robot empty_fleet robot_a0) robot_a2)) "a" = Some robot_a2 /\
  robot_a2 <> robot_a0.
Proof. split; [reflexivity|discriminate]. Qed.

(** C4 (amended): [add_robot] of a robot whose id is already registered
    overwrites the registry entry in place (same iteration order), leaves
    every other robot and the task records as they were, and reports no
    error. *)
Theorem add_robot_overwrites (f : Fleet) (r : Robot) :
  rid r ∈ map fst (robots f) ->
  dict_get (robots (add_robot f r)) (rid r) = Some r /\
  (forall k, k <> rid r -> dict_get (robots (add_robot f r)) k = dict_get (robots f) k) /\
  map fst (robots (add_robot f r)) = map fst (robots f) /\
  tasks (add_robot f r) = tasks f.
Proof.
  intros Hin. unfold add_robot; simpl.
  split; [apply dict_get_set_eq|].
  split; [intros k Hk; apply dict_get_set_ne; auto|].
  split; [apply dict_set_keys; done|done].
Qed.

(** Witness of [add_robot_overwrites]. *)
Lemma add_robot_overwrites_witness :
  rid robot_a2 ∈ map fst (robots (add_robot empty_fleet robot_a0)) /\
  dict_get (robots (add_robot (add_robot empty_fleet robot_a0) robot_a2)) (rid robot_a2)
    = Some robot_a2.
Proof.
  assert (H : rid robot_a2 ∈ map fst (robots (add_robot empty_fleet robot_a0)))
    by (simpl; left).
  split; [exact H|].
  exact (proj1 (add_robot_overwrites (add_robot empty_fleet robot_a0) robot_a2 H)).
Defined.

(** ** Task assignment and cancellation *)

(** C6: [assign_task] reports failure and changes nothing (robot fields and
    task records alike) when the robot id is unknown, or when the robot is
    not already at the destination and [get_path] finds no path. *)
Theorem assign_task_failure_unchanged gp (f : Fleet) (robot_id : string) (d : Z) (now : Q) :
  (dict_get (robots f) robot_id = None ->
     assign_task gp f robot_id d now = (f, false)) /\
  (forall r, dict_get (robots f) robot_id = Some r ->
     current_vertex r <> Some d ->
     gp (current_vertex r) d = None ->
     assign_task gp f robot_id d now = (f, false)).
Proof.
  unfold assign_task. split.
  - intros ->. done.
  - intros r -> Hne Hp. rewrite bool_decide_false by done. rewrite Hp. done.
Qed.

(** Witness of [assign_task_failure_unchanged]. *)
Lemma assign_task_failure_unchanged_witness :
  let f := add_robot empty_fleet robot_at_2 in
  dict_get (robots f) "c" = Some robot_at_2 /\ current_vertex robot_at_2 <> Some 0%Z /\
  line_get_path (current_vertex robot_at_2) 0%Z = None /\
  assign_task line_get_path f "c" 0%Z 0 = (f, false).
Proof.
  intros f. split; [reflexivity|]. split; [discriminate|]. split; [reflexivity|].
  apply (proj2 (assign_task_failure_unchanged line_get_path f "c" 0%Z 0) robot_at_2);
    [reflexivity|discriminate|reflexivity].
Defined.

Lemma update_robots_loop_keys norm vp ch dt tm rs rs' infos tm' :
  update_robots_loop norm vp ch dt tm rs = Some (rs', infos, tm') ->
  map fst rs' = map fst rs.
Proof.
  revert tm rs' infos tm'. induction rs as [|[i r] rs IH]; intros tm rs' infos tm'; simpl.
  - intros [= <- _ _]. done.
  - destruct (tick_one _ _ _ _ _ _ _) as [[[r1 info1] tm1]|]; [|discriminate].
    destruct (update_robots_loop _ _ _ _ _ _) as [[[rs2 infos2] tm2]|] eqn:Hl; [|discriminate].
    intros [= <- _ _]. simpl. f_equal. eapply IH. exact Hl.
Qed.

Lemma run_ticks_keys norm vp ch dts f tm f' tm' :
  run_ticks norm vp ch dts f tm = Some (f', tm') ->
  map fst (robots f') = map fst (robots f).
Proof.
  revert f tm. induction dts as [|dt dts IH]; intros f tm; simpl.
  - intros [= <- _]. done.
  - destruct (update_robots _ _ _ _ _ _) as [[[f1 tm1] infos]|] eqn:Hu; [|discriminate].
    intros Hr. rewrite (IH _ _ Hr). unfold update_robots in Hu.
    destruct (update_robots_loop _ _ _ _ _ _) as [[[rs infos'] tm'']|] eqn:Hl; [|discriminate].
    injection Hu as <- _ _. simpl. eapply update_robots_loop_keys. exact Hl.
Qed.

Lemma assign_task_keys gp f i d now :
  map fst (robots (fst (assign_task gp f i d now))) = map fst (robots f).
Proof.
  unfold assign_task. destruct (dict_get (robots f) i) as [r|] eqn:Hg; [|done].
  case_bool_decide; [done|]. repeat case_match; try done. simpl.
  apply dict_set_keys, dict_get_keys. congruence.
Qed.

(** C7: for a registered robot, [assign_task] followed by any number of
    successful ticks and then [cancel_task] returns true and leaves the
    robot IDLE with an empty path, no destination, no next vertex, and no
    task record. *)
Theorem assign_ticks_cancel norm vp ch gp (f : Fleet) (tm : Traffic) (robot_id : string)
    (d : Z) (now : Q) (dts : list Q) (f2 : Fleet) (tm2 : Traffic) :
  robot_id ∈ map fst (robots f) ->
  run_ticks norm vp ch dts (fst (assign_task gp f robot_id d now)) tm = Some (f2, tm2) ->
  snd (cancel_task f2 robot_id) = true /\
  exists r, dict_get (robots (fst (cancel_task f2 robot_id))) robot_id = Some r /\
    state r = IDLE /\ path r = [] /\ destination r = None /\ next_vertex r = None /\
    tasks (fst (cancel_task f2 robot_id)) !! robot_id = None.
Proof.
  intros Hin Hr.
  apply run_ticks_keys in Hr. rewrite assign_task_keys in Hr.
  rewrite <- Hr in Hin. apply dict_get_keys in Hin.
  unfold cancel_task. destruct (dict_get (robots f2) robot_id) as [r|]; [|done].
  simpl. split; [done|]. eexists. split; [apply dict_get_set_eq|].
  repeat split. simpl. apply lookup_delete_eq.
Qed.

(** Witness of [assign_ticks_cancel]: scenario A, cancelled after two ticks. *)
Lemma assign_ticks_cancel_witness :
  let f := add_robot empty_fleet robot_a0 in
  "a"%string ∈ map fst (robots f) /\
  exists f2 tm2,
    run_ticks axis_norm line_positions line_chargers [1; 1]
      (fst (assign_task line_get_path f "a" 2%Z 0)) empty_traffic = Some (f2, tm2) /\
    snd (cancel_task f2 "a") = true.
Proof.
  intros f. assert (Hin : "a"%string ∈ map fst (robots f)) by (simpl; left).
  split; [exact Hin|].
  destruct (run_ticks axis_norm line_positions line_chargers [1; 1]
      (fst (assign_task line_get_path f "a" 2%Z 0)) empty_traffic) as [[f2 tm2]|] eqn:E.
  - exists f2, tm2. split; [reflexivity|].
    exact (proj1 (assign_ticks_cancel axis_norm line_positions line_chargers line_get_path
                    f empty_traffic "a" 2%Z 0 [1; 1] f2 tm2 Hin E)).
  - vm_compute in E. discriminate.
Defined.

(** ** Path bookkeeping on arrival *)

(** C5 (code defect, scenario A): after the first tick robot "a" has snapped
    onto vertex 1 with remaining path [1; 2]; its next vertex is set to the
    new path head 1, the vertex just reached, not to 2. After the second
    tick it re-snaps onto vertex 1 and its path [2] no longer starts with
    its current vertex. *)
Theorem snap_next_vertex_is_reached_vertex :
  (exists s r, run_line (take 3 scenario_a_ops) = Some s /\
     dict_get (robots (fst s)) "a" = Some r /\
     current_vertex r = Some 1%Z /\ path r = [1%Z; 2%Z] /\ next_vertex r = Some 1%Z) /\
  (exists s r, run_line scenario_a_ops = Some s /\
     dict_get (robots (fst s)) "a" = Some r /\
     current_vertex r = Some 1%Z /\ path r = [2%Z] /\ next_vertex r = Some 2%Z).
Proof.
  split; do 2 eexists; (split; [vm_compute; reflexivity|]);
    (split; [vm_compute; reflexivity|]); repeat split.
Qed.

(** ** Battery *)

Lemma move_body_battery norm dt vp occ r n r' info :
  move_body norm dt vp occ r n = Some (r', info) -> battery r' = battery r.
Proof.
  unfold move_body. repeat case_match; intros Hm; simplify_eq; reflexivity.
Qed.

Lemma py_max_bounds a b : a <= py_max a b /\ (py_max a b = a \/ py_max a b = b).
Proof.
  unfold py_max. destruct (Qltb a b) eqn:E.
  - apply Qltb_iff in E. split; [lra|tauto].
  - split; [lra|tauto].
Qed.

Lemma py_min_bounds a b : py_min a b <= a /\ (py_min a b = a \/ py_min a b = b).
Proof.
  unfold py_min. destruct (Qltb b a) eqn:E.
  - apply Qltb_iff in E. split; [lra|tauto].
  - split; [lra|tauto].
Qed.

(** C8 (amended): on a tick with [dt > 0] the battery becomes
    [max(0, b - 0.01 dt)] in every state other than CHARGING and
    [min(100, max(0, b - 0.01 dt) + 0.1 dt)] in CHARGING (the drain is
    applied before the charge); a battery in [0, 100] before the tick is in
    [0, 100] after it. *)
Theorem robot_update_battery norm (dt : Q) vp occ (r r' : Robot) (info : UpdateInfo) :
  0 < dt ->
  robot_update norm dt vp occ r = Some (r', info) ->
  (state r <> CHARGING -> battery r' = py_max 0 (battery r - (1 # 100) * dt)) /\
  (state r = CHARGING ->
     battery r' = py_min 100 (py_max 0 (battery r - (1 # 100) * dt) + (1 # 10) * dt)) /\
  (0 <= battery r <= 100 -> 0 <= battery r' <= 100).
Proof.
  intros Hdt Hu.
  assert (Hdrain : state r <> CHARGING -> battery r' = py_max 0 (battery r - (1 # 100) * dt)).
  { intros Hs. unfold robot_update in Hu. simpl in Hu.
    destruct (state r); try done; try (injection Hu as <- _; reflexivity).
    - repeat case_match; try discriminate;
        first [ apply move_body_battery in Hu; exact Hu
              | injection Hu as <- _; reflexivity ].
    - case_match; injection Hu as <- _; reflexivity. }
  assert (Hcharge : state r = CHARGING ->
     battery r' = py_min 100 (py_max 0 (battery r - (1 # 100) * dt) + (1 # 10) * dt)).
  { intros Hs. unfold robot_update in Hu. simpl in Hu. rewrite Hs in Hu.
    case_match; injection Hu as <- _; reflexivity. }
  split; [exact Hdrain|]. split; [exact Hcharge|].
  intros Hb.
  destruct (py_max_bounds 0 (battery r - (1 # 100) * dt)) as [Hm0 Hm].
  assert (Hm100 : py_max 0 (battery r - (1 # 100) * dt) <= 100) by (destruct Hm as [-> | ->]; lra).
  destruct (decide (state r = CHARGING)) as [Hs|Hs].
  - rewrite (Hcharge Hs).
    destruct (py_min_bounds 100 (py_max 0 (battery r - (1 # 100) * dt) + (1 # 10) * dt)) as [Hn1 Hn].
    split; [|exact Hn1]. destruct Hn as [-> | ->]; lra.
  - rewrite (Hdrain Hs). lra.
Qed.

(** C8 (counterexample): an IDLE robot with battery 0 does not lose charge
    on a tick of one second. *)
Lemma battery_floor_no_drain :
  exists r' info, robot_update axis_norm 1 line_positions ∅ empty_robot = Some (r', info) /\
    state empty_robot = IDLE /\ ~ (battery r' < battery empty_robot).
Proof.
  do 2 eexists. split; [vm_compute; reflexivity|]. split; [reflexivity|].
  vm_compute. discriminate.
Qed.

(** Witness of [robot_update_battery]: the same tick. *)
Lemma robot_update_battery_witness :
  exists r' info, robot_update axis_norm 1 line_positions ∅ empty_robot = Some (r', info) /\
    battery r' = py_max 0 (battery empty_robot - (1 # 100) * 1).
Proof.
  destruct (robot_update axis_norm 1 line_positions ∅ empty_robot) as [[r' info]|] eqn:E.
  - exists r', info. split; [reflexivity|].
    apply (proj1 (robot_update_battery axis_norm 1 line_positions ∅ empty_robot r' info
                    ltac:(vm_compute; reflexivity) E)).
    discriminate.
  - vm_compute in E. discriminate.
Defined.

(** ** Reassignment of a busy robot *)

(** C9: [assign_task] on a CHARGING or WAITING robot with a reachable
    destination other than its current vertex succeeds and sets the robot
    MOVING with its battery as it was (an ongoing charge is dropped), and
    the operation leaves the occupancy tables untouched (nothing it held is
    released). [get_path] is assumed to return a path from the start to the
    end vertex, as networkx's [shortest_path] does. *)
Theorem assign_task_overrides_state norm vp ch gp (f : Fleet) (tm : Traffic)
    (robot_id : string) (r : Robot) (d : Z) (now : Q) (p : list Z) (a : Z) :
  dict_get (robots f) robot_id = Some r ->
  state r = CHARGING \/ state r = WAITING ->
  current_vertex r = Some a -> a <> d ->
  gp (Some a) d = Some p -> head p = Some a -> last p = Some d ->
  snd (assign_task gp f robot_id d now) = true /\
  step norm vp ch gp (f, tm) (OpAssign robot_id d now) =
    Some (fst (assign_task gp f robot_id d now), tm) /\
  exists r', dict_get (robots (fst (assign_task gp f robot_id d now))) robot_id = Some r' /\
    state r' = MOVING /\ battery r' = battery r /\ current_vertex r' = current_vertex r /\
    destination r' = Some d /\ path r' = p.
Proof.
  intros Hg _ Hc Hne Hp Hhd Hlast.
  assert (Hassign : assign_task gp f robot_id d now =
     (mkFleet (dict_set (robots f) robot_id (set_destination r d p))
              (<[robot_id := mkTask d p now]> (tasks f)), true)).
  { unfold assign_task. rewrite Hg, Hc. rewrite bool_decide_false by congruence.
    rewrite Hp. destruct p; [discriminate|done]. }
  split; [rewrite Hassign; done|].
  split; [simpl; rewrite Hassign; done|].
  rewrite Hassign. eexists. split; [simpl; apply dict_get_set_eq|].
  destruct p as [|x [|y rest]]; simpl in Hhd; [discriminate| |].
  - simpl in Hlast. congruence.
  - repeat split.
Qed.

(** Witness of [assign_task_overrides_state]. *)
Lemma assign_task_overrides_state_witness :
  let f := add_robot empty_fleet charging_robot in
  line_get_path (Some 0%Z) 2%Z = Some [0%Z; 1%Z; 2%Z] /\
  snd (assign_task line_get_path f "d" 2%Z 0) = true.
Proof.
  intros f. split; [reflexivity|].
  apply (proj1 (assign_task_overrides_state axis_norm line_positions line_chargers
     line_get_path f empty_traffic "d" charging_robot 2%Z 0 [0%Z; 1%Z; 2%Z] 0%Z
     eq_refl (or_introl eq_refl) eq_refl ltac:(discriminate) eq_refl eq_refl eq_refl)).
Defined.

(** ** Truthiness of the next vertex *)

(** C10: in state MOVING a next vertex equal to 0 takes the branch for a
    missing next vertex: the tick behaves as with [None] (up to the stale
    [next_vertex] field left in place when the robot completes), it first
    drops the path head and then heads for the new head (or completes when
    the path runs out), whereas a nonzero next vertex goes straight to the
    lane check and the move. On the line graph a robot at vertex 1 heading
    for vertex 0 completes in one tick, while one heading for vertex 2 is
    still MOVING after that tick. *)
Theorem moving_next_zero_is_falsy norm (dt : Q) vp occ (r : Robot) :
  state r = MOVING ->
  without_next (robot_update norm dt vp occ (set_next_vertex r (Some 0%Z))) =
    without_next (robot_update norm dt vp occ (set_next_vertex r None)) /\
  robot_update norm dt vp occ (set_next_vertex r (Some 0%Z)) =
    (let r0 := drain dt (set_next_vertex r (Some 0%Z)) in
     match path r with
     | [] => Some (set_state r0 COMPLETED, info_state COMPLETED)
     | _ :: rest =>
         match rest with
         | [] => Some (set_state (set_path r0 rest) COMPLETED, info_state COMPLETED)
         | h :: _ => move_body norm dt vp occ (set_path r0 rest) h
         end
     end) /\
  (forall k, k <> 0%Z ->
     robot_update norm dt vp occ (set_next_vertex r (Some k)) =
       move_body norm dt vp occ (drain dt (set_next_vertex r (Some k))) k) /\
  option_map (fun x => state (fst x))
    (robot_update axis_norm 1 line_positions ∅ (robot_toward [1%Z; 0%Z] 0%Z)) = Some COMPLETED /\
  option_map (fun x => state (fst x))
    (robot_update axis_norm 1 line_positions ∅ (robot_toward [1%Z; 2%Z] 2%Z)) = Some MOVING.
Proof.
  intros Hs. unfold robot_update, drain; simpl. rewrite Hs.
  split; [unfold without_next; destruct (path r) as [|? [|? ?]]; reflexivity|].
  split; [destruct (path r) as [|? [|? ?]]; reflexivity|].
  split; [|split; vm_compute; reflexivity].
  intros k Hk. unfold py_truthy_vertex. rewrite (proj2 (Z.eqb_neq k 0) Hk). reflexivity.
Qed.

(** Witness of [moving_next_zero_is_falsy]. *)
Lemma moving_next_zero_is_falsy_witness :
  state (robot_toward [1%Z; 0%Z] 0%Z) = MOVING /\
  without_next (robot_update axis_norm 1 line_positions ∅
    (set_next_vertex (robot_toward [1%Z; 0%Z] 0%Z) (Some 0%Z))) =
  without_next (robot_update axis_norm 1 line_positions ∅
    (set_next_vertex (robot_toward [1%Z; 0%Z] 0%Z) None)).
Proof.
  split; [reflexivity|].
  exact (proj1 (moving_next_zero_is_falsy axis_norm 1 line_positions ∅
                  (robot_toward [1%Z; 0%Z] 0%Z) eq_refl)).
Defined.

(** * Further properties of the source *)

(** ** Releasing lanes *)

(** Extra: releasing a lane right after registering it, when neither the
    lane nor its source vertex was held before, succeeds and restores both
    tables exactly. *)
Theorem release_after_register (tm : Traffic) (robot_id : string) (a b : Z) :
  lane_occupancy tm !! (a, b) = None -> vertex_occupancy tm !! a = None ->
  release_lane (fst (register_lane_usage tm robot_id a b)) robot_id a b = (tm, true).
Proof.
  intros Hl Hv.
  rewrite register_lane_usage_available by (unfold lane_available; rewrite Hl; done).
  unfold release_lane; simpl. rewrite !lookup_insert_eq.
  rewrite !bool_decide_true by done.
  rewrite !delete_insert_id by done. destruct tm; done.
Qed.

(** Witness of [release_after_register]. *)
Lemma release_after_register_witness :
  release_lane (fst (register_lane_usage empty_traffic "a" 0%Z 1%Z)) "a" 0%Z 1%Z
    = (empty_traffic, true).
Proof. apply release_after_register; reflexivity. Defined.

(** Extra: [release_lane] removes exactly the lane entry [(a, b)] when
    [robot_id] holds it, together with the vertex entry [a] if that is also
    [robot_id]'s; every other entry, and every entry of another robot, stays.
    It returns true exactly when [robot_id] held the lane. *)
Theorem release_lane_entries (tm : Traffic) (robot_id : string) (a b : Z) :
  let res := release_lane tm robot_id a b in
  snd res = bool_decide (lane_occupancy tm !! (a, b) = Some robot_id) /\
  (forall l x, lane_occupancy (fst res) !! l = Some x <->
     lane_occupancy tm !! l = Some x /\ ~ (l = (a, b) /\ x = robot_id)) /\
  (forall v x, vertex_occupancy (fst res) !! v = Some x <->
     vertex_occupancy tm !! v = Some x /\
     ~ (v = a /\ x = robot_id /\ lane_occupancy tm !! (a, b) = Some robot_id)).
Proof.
  unfold release_lane; simpl.
  destruct (lane_occupancy tm !! (a, b)) as [h|] eqn:Hab.
  - case_bool_decide as Hh.
    + subst h. simpl. rewrite bool_decide_true by done. split; [done|]. split.
      * intros l x. rewrite lookup_delete_Some. split.
        -- intros [Hne Hl]. split; [done|]. intros [-> ->]. done.
        -- intros [Hl Hn]. split; [|done]. intros <-. rewrite Hab in Hl.
           injection Hl as <-. tauto.
      * intros v x. destruct (vertex_occupancy tm !! a) as [vh|] eqn:Hva.
        -- case_bool_decide as Hvh.
           ++ subst vh. rewrite lookup_delete_Some. split.
              ** intros [Hne Hv]. split; [done|]. intros (-> & _). done.
              ** intros [Hv Hn]. split; [|done]. intros <-. rewrite Hva in Hv.
                 injection Hv as <-. tauto.
           ++ split; [intros Hv; split; [done|]; intros (-> & -> & _); congruence|tauto].
        -- split; [intros Hv; split; [done|]; intros (-> & _); congruence|tauto].
    + simpl. try (rewrite bool_decide_false by congruence). split; [done|].
      split; [intros l x; split; [intros Hl; split; [done|]; intros [-> ->]; congruence|tauto]|].
      intros v x. split; [intros Hv; split; [done|]; intros (_ & _ & H); congruence|tauto].
  - simpl. try (rewrite bool_decide_false by congruence). split; [done|].
    split; [intros l x; split; [intros Hl; split; [done|]; intros [-> ->]; congruence|tauto]|].
    intros v x. split; [intros Hv; split; [done|]; intros (_ & _ & H); congruence|tauto].
Qed.

(** ** Lane and vertex availability *)

(** Extra: for a non-empty robot id, [register_lane_usage] succeeds exactly
    when [is_lane_free] says the lane is free for that robot; for the empty
    id [""] (falsy in Python) [is_lane_free] reports the robot's own lane as
    taken although registering it again succeeds. *)
Theorem register_agrees_with_is_lane_free (tm : Traffic) (robot_id : string) (a b : Z) :
  (robot_id <> ""%string ->
     snd (register_lane_usage tm robot_id a b) = is_lane_free tm a b (Some robot_id)) /\
  (lane_occupancy tm !! (a, b) = Some ""%string ->
     snd (register_lane_usage tm "" a b) = true /\ is_lane_free tm a b (Some ""%string) = false).
Proof.
  unfold register_lane_usage, is_lane_free, py_truthy_id; simpl. split.
  - intros Hne. rewrite (proj2 (String.eqb_neq _ _) Hne).
    destruct (lane_occupancy tm !! (a, b)) as [h|]; [|done].
    destruct (String.eqb h robot_id) eqn:E.
    + apply String.eqb_eq in E. rewrite bool_decide_false by tauto. done.
    + apply String.eqb_neq in E. rewrite bool_decide_true by done. done.
  - intros ->. rewrite bool_decide_false by tauto. done.
Qed.

(** Witness of [register_agrees_with_is_lane_free]. *)
Lemma register_agrees_with_is_lane_free_witness :
  let tm := fst (register_lane_usage empty_traffic "a1" 0%Z 1%Z) in
  snd (register_lane_usage tm "a2" 0%Z 1%Z) = is_lane_free tm 0%Z 1%Z (Some "a2"%string).
Proof. intros tm. apply (proj1 (register_agrees_with_is_lane_free tm "a2" 0%Z 1%Z)). discriminate. Defined.

(** Extra: after a successful registration of lane [(a, b)] by a non-empty
    robot id, the lane and its source vertex are free for that robot and
    taken for every other caller (another non-empty id, or no id). *)
Theorem register_then_free (tm : Traffic) (robot_id : string) (a b : Z) (other : option string) :
  robot_id <> ""%string ->
  snd (register_lane_usage tm robot_id a b) = true ->
  let tm' := fst (register_lane_usage tm robot_id a b) in
  is_lane_free tm' a b (Some robot_id) = true /\
  is_vertex_free tm' a (Some robot_id) = true /\
  (other <> Some robot_id ->
     is_lane_free tm' a b other = false /\ is_vertex_free tm' a other = false).
Proof.
  intros Hne Hok.
  assert (Hav : lane_available tm robot_id a b).
  { unfold lane_available. unfold register_lane_usage in Hok.
    destruct (lane_occupancy tm !! (a, b)) as [h|]; [|done].
    case_bool_decide; [done|]. destruct (decide (h = robot_id)); tauto. }
  simpl. rewrite register_lane_usage_available by done. simpl.
  unfold is_lane_free, is_vertex_free, py_truthy_id; simpl. rewrite !lookup_insert_eq.
  rewrite (proj2 (String.eqb_neq _ _) Hne), String.eqb_refl.
  split; [done|]. split; [done|]. intros Hoth.
  destruct other as [o|]; [|done].
  destruct (String.eqb o "") eqn:Eo; [done|].
  destruct (String.eqb robot_id o) eqn:E; [|done].
  apply String.eqb_eq in E. subst. done.
Qed.

(** Witness of [register_then_free]. *)
Lemma register_then_free_witness :
  is_lane_free (fst (register_lane_usage empty_traffic "a1" 0%Z 1%Z)) 0%Z 1%Z
    (Some "a2"%string) = false.
Proof.
  apply (register_then_free empty_traffic "a1" 0%Z 1%Z (Some "a2"%string));
    [discriminate|reflexivity|discriminate].
Defined.

(** ** Rebuilding the tables from robot positions *)

Lemma positions_step_shape (tm : Traffic) (robot_id : string) (r : Robot) :
  let tm' :=
    match current_vertex r with
    | Some c =>
        let vo := <[c := robot_id]> (vertex_occupancy tm) in
        match next_vertex r with
        | Some n => mkTraffic (<[(c, n) := robot_id]> (lane_occupancy tm)) vo
        | None => mkTraffic (lane_occupancy tm) vo
        end
    | None => tm
    end in
  (forall l x, lane_occupancy tm' !! l = Some x ->
     (x = robot_id /\ exists c n, current_vertex r = Some c /\ next_vertex r = Some n /\ l = (c, n))
     \/ lane_occupancy tm !! l = Some x) /\
  (forall v x, vertex_occupancy tm' !! v = Some x ->
     (x = robot_id /\ current_vertex r = Some v) \/ vertex_occupancy tm !! v = Some x).
Proof.
  simpl. destruct (current_vertex r) as [c|] eqn:Hc; [|split; intros; right; done].
  split.
  - intros l x. destruct (next_vertex r) as [n|] eqn:Hn; simpl; [|intros; right; done].
    rewrite lookup_insert_Some. intros [[<- <-]|[_ Hl]]; [left; eauto 10|right; done].
  - intros v x. destruct (next_vertex r); simpl;
      rewrite lookup_insert_Some; intros [[<- <-]|[_ Hv]]; eauto.
Qed.

Lemma positions_loop_one_slot (rs : list (string * Robot)) (tm : Traffic) :
  NoDup (map fst rs) -> one_slot_per_robot tm ->
  (forall k, k ∈ map fst rs -> holds_nothing tm k) ->
  one_slot_per_robot (positions_loop tm rs).
Proof.
  revert tm. induction rs as [|[i r] rs IH]; intros tm Hnd Hone Hnot; simpl; [done|].
  inversion Hnd as [|? ? Hni Hnd']; subst.
  destruct (positions_step_shape tm i r) as [HL HV].
  apply IH; [done| |].
  - destruct (Hnot i (list_elem_of_here _ _)) as [Hli Hvi].
    destruct Hone as [Ho1 Ho2]. split.
    + intros l1 l2 x H1 H2.
      destruct (HL _ _ H1) as [[-> (c1 & n1 & Hc1 & Hn1 & ->)]|H1'];
      destruct (HL _ _ H2) as [[Hx (c2 & n2 & Hc2 & Hn2 & ->)]|H2'].
      * congruence.
      * exfalso. apply (Hli l2). done.
      * subst x. exfalso. apply (Hli l1). done.
      * eauto.
    + intros v1 v2 x H1 H2.
      destruct (HV _ _ H1) as [[-> Hc1]|H1']; destruct (HV _ _ H2) as [[Hx Hc2]|H2'].
      * congruence.
      * exfalso. apply (Hvi v2). done.
      * subst x. exfalso. apply (Hvi v1). done.
      * eauto.
  - intros k Hk. assert (Hki : k <> i) by (intros ->; done).
    destruct (Hnot k (list_elem_of_further _ _ _ Hk)) as [Hlk Hvk]. split.
    + intros l Hl. destruct (HL _ _ Hl) as [[-> _]|Hl']; [done|]. apply (Hlk l). done.
    + intros v Hv. destruct (HV _ _ Hv) as [[-> _]|Hv']; [done|]. apply (Hvk v). done.
Qed.

Lemma positions_loop_origin (rs : list (string * Robot)) (tm : Traffic) :
  (forall c n x, lane_occupancy (positions_loop tm rs) !! (c, n) = Some x ->
     lane_occupancy tm !! (c, n) = Some x \/
     exists r, (x, r) ∈ rs /\ current_vertex r = Some c /\ next_vertex r = Some n) /\
  (forall v x, vertex_occupancy (positions_loop tm rs) !! v = Some x ->
     vertex_occupancy tm !! v = Some x \/ exists r, (x, r) ∈ rs /\ current_vertex r = Some v).
Proof.
  revert tm. induction rs as [|[i r] rs IH]; intros tm; simpl; [split; intros; left; done|].
  destruct (positions_step_shape tm i r) as [HL HV].
  match goal with |- context [positions_loop ?t rs] => destruct (IH t) as [IL IV] end.
  split.
  - intros c n x Hx. destruct (IL _ _ _ Hx) as [H|(r' & Hin & Hc & Hn)].
    + destruct (HL _ _ H) as [[-> (c' & n' & Hc & Hn & Heq)]|H'].
      * injection Heq as -> ->. right. exists r. split; [left|]; done.
      * left; done.
    + right. exists r'. split; [right; done|done].
  - intros v x Hx. destruct (IV _ _ Hx) as [H|(r' & Hin & Hc)].
    + destruct (HV _ _ H) as [[-> Hc]|H'].
      * right. exists r. split; [left|]; done.
      * left; done.
    + right. exists r'. split; [right; done|done].
Qed.

(** Extra: [update_from_robot_positions] rebuilds both tables so that, for
    a registry with distinct ids (a Python dict), every robot holds at most
    one lane entry and one vertex entry, and every entry belongs to a robot
    of the registry standing at that vertex (heading along that lane). *)
Theorem update_from_robot_positions_spec (tm : Traffic) (rs : list (string * Robot)) :
  NoDup (map fst rs) ->
  let tm' := update_from_robot_positions tm rs in
  one_slot_per_robot tm' /\
  (forall c n x, lane_occupancy tm' !! (c, n) = Some x ->
     exists r, (x, r) ∈ rs /\ current_vertex r = Some c /\ next_vertex r = Some n) /\
  (forall v x, vertex_occupancy tm' !! v = Some x ->
     exists r, (x, r) ∈ rs /\ current_vertex r = Some v).
Proof.
  intros Hnd. unfold update_from_robot_positions. simpl.
  destruct (positions_loop_origin rs (mkTraffic ∅ ∅)) as [IL IV].
  split; [|split].
  - apply positions_loop_one_slot; [done| |].
    + split; intros ? ? ?; simpl; rewrite lookup_empty; discriminate.
    + intros k _. split; intros ?; simpl; rewrite lookup_empty; discriminate.
  - intros c n x Hx. destruct (IL _ _ _ Hx) as [H|H]; [simpl in H; rewrite lookup_empty in H; discriminate|done].
  - intros v x Hx. destruct (IV _ _ Hx) as [H|H]; [simpl in H; rewrite lookup_empty in H; discriminate|done].
Qed.

(** Witness of [update_from_robot_positions_spec]: three robots with
    distinct ids, "a" and "b" both on vertex 0 heading for 1 (the later one
    takes both entries), "c" on vertex 1 heading for 2, rebuilt over the
    tables left by scenario A, where "a" held two lanes. *)
Lemma update_from_robot_positions_spec_witness :
  let tm := snd (default (empty_fleet, empty_traffic) (run_line scenario_a_ops)) in
  NoDup (map fst three_robots) /\
  one_slot_per_robot (update_from_robot_positions tm three_robots) /\
  lane_occupancy (update_from_robot_positions tm three_robots) !! (0%Z, 1%Z) = Some "b"%string.
Proof.
  intros tm. assert (Hnd : NoDup (map fst three_robots)) by (vm_compute; repeat constructor; set_solver).
  split; [exact Hnd|]. split; [exact (proj1 (update_from_robot_positions_spec tm three_robots Hnd))|].
  vm_compute. reflexivity.
Defined.

(** ** Registry operations *)

Lemma dict_get_del_ne {A} (l : list (string * A)) k k' :
  k <> k' -> dict_get (dict_del l k) k' = dict_get l k'.
Proof.
  intros Hne. induction l as [|[k0 v0] l IH]; simpl; [done|].
  destruct (String.eqb k k0) eqn:E; simpl.
  - apply String.eqb_eq in E as ->.
    destruct (String.eqb k' k0) eqn:E'; [apply String.eqb_eq in E'; congruence|done].
  - destruct (String.eqb k' k0); done.
Qed.

Lemma dict_get_del_eq {A} (l : list (string * A)) k :
  NoDup (map fst l) -> dict_get (dict_del l k) k = None.
Proof.
  induction l as [|[k0 v0] l IH]; simpl; intros Hnd; [done|].
  inversion Hnd as [|? ? Hni Hnd']; subst.
  destruct (String.eqb k k0) eqn:E; simpl.
  - apply String.eqb_eq in E as ->. destruct (dict_get l k0) eqn:Hg; [|done].
    exfalso. apply Hni, dict_get_keys. congruence.
  - rewrite E. apply IH. done.
Qed.

(** Extra: [remove_robot] of an unknown id returns false and changes
    nothing; of a registered id (ids being distinct) it returns true, drops
    the robot and its task record, and leaves every other robot and task
    record as it was. *)
Theorem remove_robot_spec (f : Fleet) (robot_id : string) :
  (dict_get (robots f) robot_id = None -> remove_robot f robot_id = (f, false)) /\
  (NoDup (map fst (robots f)) -> dict_get (robots f) robot_id <> None ->
     let f' := fst (remove_robot f robot_id) in
     snd (remove_robot f robot_id) = true /\
     dict_get (robots f') robot_id = None /\ tasks f' !! robot_id = None /\
     forall k, k <> robot_id ->
       dict_get (robots f') k = dict_get (robots f) k /\ tasks f' !! k = tasks f !! k).
Proof.
  unfold remove_robot. split; [intros ->; done|].
  intros Hnd Hin. destruct (dict_get (robots f) robot_id) as [r|]; [|done]. simpl.
  split; [done|]. split; [apply dict_get_del_eq; done|].
  split; [apply lookup_delete_eq|].
  intros k Hk. split; [apply dict_get_del_ne; done|apply lookup_delete_ne; done].
Qed.

(** Witness of [remove_robot_spec]. *)
Lemma remove_robot_spec_witness :
  dict_get (robots (fst (remove_robot (add_robot empty_fleet robot_a0) "a"))) "a" = None.
Proof.
  apply (proj2 (remove_robot_spec (add_robot empty_fleet robot_a0) "a"));
    [vm_compute; repeat constructor; set_solver|discriminate].
Defined.

(** Extra: [assign_task] for a robot already standing on the destination
    returns true and changes nothing: no task record is created and the
    robot keeps its state (a CHARGING robot goes on charging). *)
Theorem assign_task_at_destination gp (f : Fleet) (robot_id : string) (r : Robot)
    (d : Z) (now : Q) :
  dict_get (robots f) robot_id = Some r -> current_vertex r = Some d ->
  assign_task gp f robot_id d now = (f, true).
Proof.
  intros Hg Hc. unfold assign_task. rewrite Hg. rewrite bool_decide_true by done. done.
Qed.

(** Witness of [assign_task_at_destination]. *)
Lemma assign_task_at_destination_witness :
  assign_task line_get_path (add_robot empty_fleet charging_robot) "d" 0%Z 0
    = (add_robot empty_fleet charging_robot, true).
Proof. apply (assign_task_at_destination _ _ _ charging_robot); reflexivity. Defined.

(** Extra: a successful [assign_task] (robot not on the destination,
    non-empty path found) returns true, gives the robot the path through
    [set_destination], records the task [(destination, path, now)] under its
    id, and leaves the other robots, the other task records and the registry
    order unchanged. *)
Theorem assign_task_success gp (f : Fleet) (robot_id : string) (r : Robot)
    (d : Z) (now : Q) (p : list Z) :
  dict_get (robots f) robot_id = Some r -> current_vertex r <> Some d ->
  gp (current_vertex r) d = Some p -> p <> [] ->
  let f' := fst (assign_task gp f robot_id d now) in
  snd (assign_task gp f robot_id d now) = true /\
  dict_get (robots f') robot_id = Some (set_destination r d p) /\
  tasks f' !! robot_id = Some (mkTask d p now) /\
  map fst (robots f') = map fst (robots f) /\
  forall k, k <> robot_id ->
    dict_get (robots f') k = dict_get (robots f) k /\ tasks f' !! k = tasks f !! k.
Proof.
  intros Hg Hc Hp Hne.
  assert (Ha : assign_task gp f robot_id d now =
     (mkFleet (dict_set (robots f) robot_id (set_destination r d p))
              (<[robot_id := mkTask d p now]> (tasks f)), true)).
  { unfold assign_task. rewrite Hg. rewrite bool_decide_false by done. rewrite Hp.
    destruct p; done. }
  simpl. rewrite Ha. simpl. split; [done|]. split; [apply dict_get_set_eq|].
  split; [apply lookup_insert_eq|]. split.
  - apply dict_set_keys, dict_get_keys. congruence.
  - intros k Hk. split; [apply dict_get_set_ne; done|apply lookup_insert_ne; done].
Qed.

(** Witness of [assign_task_success]. *)
Lemma assign_task_success_witness :
  snd (assign_task line_get_path (add_robot empty_fleet robot_a0) "a" 2%Z 0) = true.
Proof.
  apply (assign_task_success line_get_path (add_robot empty_fleet robot_a0) "a" robot_a0
           2%Z 0 [0%Z; 1%Z; 2%Z]); [reflexivity|discriminate|reflexivity|discriminate].
Defined.

(** Extra: [cancel_task] of an unknown id returns false and changes
    nothing; of a registered robot it keeps the robot's position, current
    vertex and battery, and leaves the other robots and task records
    unchanged. *)
Theorem cancel_task_spec (f : Fleet) (robot_id : string) :
  (dict_get (robots f) robot_id = None -> cancel_task f robot_id = (f, false)) /\
  (forall r, dict_get (robots f) robot_id = Some r ->
     let f' := fst (cancel_task f robot_id) in
     (exists r', dict_get (robots f') robot_id = Some r' /\ position r' = position r /\
        current_vertex r' = current_vertex r /\ battery r' = battery r) /\
     forall k, k <> robot_id ->
       dict_get (robots f') k = dict_get (robots f) k /\ tasks f' !! k = tasks f !! k).
Proof.
  unfold cancel_task. split; [intros ->; done|].
  intros r Hg. rewrite Hg. simpl. split.
  - eexists. split; [apply dict_get_set_eq|]. done.
  - intros k Hk. split; [apply dict_get_set_ne; done|apply lookup_delete_ne; done].
Qed.

(** Witness of [cancel_task_spec]. *)
Lemma cancel_task_spec_witness :
  cancel_task (add_robot empty_fleet robot_a0) "zz" = (add_robot empty_fleet robot_a0, false).
Proof. apply (proj1 (cancel_task_spec (add_robot empty_fleet robot_a0) "zz")). reflexivity. Defined.

(** Extra: a tick of [update_robots] creates and deletes no task record
    (a robot that reaches its destination keeps its record) and changes no
    record's destination or start time; it keeps the registry's ids and
    order, and reports one update per robot in that order. *)
Theorem update_robots_keeps_tasks norm vp ch (dt : Q) (f f' : Fleet) (tm tm' : Traffic)
    (infos : list (string * UpdateInfo)) :
  update_robots norm vp ch dt f tm = Some (f', tm', infos) ->
  (forall i, is_Some (tasks f' !! i) <-> is_Some (tasks f !! i)) /\
  (forall i t, tasks f !! i = Some t -> exists t', tasks f' !! i = Some t' /\
     t_destination t' = t_destination t /\ t_start_time t' = t_start_time t) /\
  map fst (robots f') = map fst (robots f) /\
  map fst infos = map fst (robots f).
Proof.
  unfold update_robots.
  destruct (update_robots_loop _ _ _ _ _ _) as [[[rs infos'] tm'']|] eqn:Hl; [|discriminate].
  intros [= <- <- <-]. simpl. split; [done|]. split; [intros i t Ht; exists t; done|].
  split; [eapply update_robots_loop_keys; exact Hl|].
  clear -Hl. revert tm rs infos' tm'' Hl.
  induction (robots f) as [|[i r] rs0 IH]; intros tm rs infos' tm'' Hl; simpl in Hl.
  - injection Hl as _ <- _. done.
  - destruct (tick_one _ _ _ _ _ _ _) as [[[r2 info] tm1]|]; [|discriminate].
    destruct (update_robots_loop _ _ _ _ _ _) as [[[rs2 infos2] tm2]|] eqn:Hl2; [|discriminate].
    injection Hl as _ <- _. simpl. f_equal. eapply IH. exact Hl2.
Qed.

(** Witness of [update_robots_keeps_tasks]: the second tick of scenario A,
    where robot "a" reaches its destination. *)
Lemma update_robots_keeps_tasks_witness :
  let f := fst (default (empty_fleet, empty_traffic) (run_line (take 3 scenario_a_ops))) in
  let tm := snd (default (empty_fleet, empty_traffic) (run_line (take 3 scenario_a_ops))) in
  exists f' tm' infos, update_robots axis_norm line_positions line_chargers 1 f tm = Some (f', tm', infos) /\
    exists t', tasks f' !! "a"%string = Some t' /\ t_destination t' = 2%Z.
Proof.
  intros f tm.
  destruct (update_robots axis_norm line_positions line_chargers 1 f tm) as [[[f' tm'] infos]|] eqn:E.
  - exists f', tm', infos. split; [reflexivity|].
    destruct (tasks f !! "a"%string) as [t|] eqn:Ht; [|vm_compute in Ht; discriminate].
    destruct (proj1 (proj2 (update_robots_keeps_tasks _ _ _ _ _ _ _ _ _ E)) _ _ Ht) as (t' & H1 & H2 & _).
    exists t'. split; [exact H1|]. rewrite H2. vm_compute in Ht. injection Ht as <-. reflexivity.
  - vm_compute in E. discriminate.
Defined.

(** ** Robot.update *)

Lemma move_body_keeps norm dt vp occ r n r' info :
  move_body norm dt vp occ r n = Some (r', info) ->
  rid r' = rid r /\ speed r' = speed r /\ destination r' = destination r.
Proof.
  unfold move_body. repeat case_match; intros Hm; simplify_eq; simpl; auto.
Qed.

(** Extra: [Robot.update] never changes a robot's id, speed or
    destination. *)
Theorem robot_update_keeps_identity norm dt vp occ (r r' : Robot) (info : UpdateInfo) :
  robot_update norm dt vp occ r = Some (r', info) ->
  rid r' = rid r /\ speed r' = speed r /\ destination r' = destination r.
Proof.
  unfold robot_update. cbn.
  destruct (state r); cbn; repeat case_match; intros Hu;
    try (apply move_body_keeps in Hu; exact Hu); simplify_eq; cbn; auto.
Qed.

(** Witness of [robot_update_keeps_identity]. *)
Lemma robot_update_keeps_identity_witness :
  exists r' info, robot_update axis_norm 1 line_positions ∅ (robot_toward [1%Z; 2%Z] 2%Z) = Some (r', info) /\
    destination r' = destination (robot_toward [1%Z; 2%Z] 2%Z).
Proof.
  destruct (robot_update axis_norm 1 line_positions ∅ (robot_toward [1%Z; 2%Z] 2%Z)) as [[r' info]|] eqn:E.
  - exists r', info. split; [reflexivity|].
    exact (proj2 (proj2 (robot_update_keeps_identity _ _ _ _ _ _ _ E))).
  - vm_compute in E. discriminate.
Defined.

(** Extra: only a MOVING robot moves: in every other state [Robot.update]
    keeps the position, the current vertex, the path and the next vertex. *)
Theorem robot_update_only_moving_moves norm dt vp occ (r r' : Robot) (info : UpdateInfo) :
  state r <> MOVING ->
  robot_update norm dt vp occ r = Some (r', info) ->
  position r' = position r /\ current_vertex r' = current_vertex r /\
  path r' = path r /\ next_vertex r' = next_vertex r.
Proof.
  unfold robot_update. cbn. intros Hs.
  destruct (state r); cbn; try congruence; repeat case_match; intros Hu; simplify_eq; cbn; auto.
Qed.

(** Witness of [robot_update_only_moving_moves]. *)
Lemma robot_update_only_moving_moves_witness :
  exists r' info, robot_update axis_norm 1 line_positions ∅ charging_robot = Some (r', info) /\
    position r' = position charging_robot.
Proof.
  destruct (robot_update axis_norm 1 line_positions ∅ charging_robot) as [[r' info]|] eqn:E.
  - exists r', info. split; [reflexivity|].
    refine (proj1 (robot_update_only_moving_moves _ _ _ _ _ _ _ _ E)). discriminate.
  - vm_compute in E. discriminate.
Defined.

(** Extra: a MOVING robot whose next vertex is truthy and whose lane
    [(current, next)] is held by another robot does not move: it becomes
    WAITING, reports only its state, and keeps its position, current vertex,
    path and next vertex. *)
Theorem moving_blocked_waits (norm : Q -> Q -> Q) (dt : Q) (vp : gmap Z (Q * Q)) (occ : gmap (Z * Z) string) (r : Robot)
    (c n : Z) (holder : string) :
  state r = MOVING -> current_vertex r = Some c -> next_vertex r = Some n -> n <> 0%Z ->
  occ !! (c, n) = Some holder -> holder <> rid r ->
  exists r', robot_update norm dt vp occ r = Some (r', info_state WAITING) /\
    state r' = WAITING /\ position r' = position r /\ current_vertex r' = current_vertex r /\
    path r' = path r /\ next_vertex r' = next_vertex r.
Proof.
  intros Hs Hc Hn Hn0 Ho Hh. unfold robot_update. cbn. rewrite Hs, Hn. cbn.
  replace (Z.eqb n 0) with false by (symmetry; apply Z.eqb_neq; done). cbn.
  unfold move_body. cbn. rewrite Hc. cbn. rewrite Ho. rewrite bool_decide_true by done.
  eexists. split; [reflexivity|]. cbn. rewrite ?Hn. auto.
Qed.

(** Witness of [moving_blocked_waits]. *)
Lemma moving_blocked_waits_witness :
  exists r', robot_update axis_norm 1 line_positions {[(1%Z, 2%Z) := "x"]} (robot_toward [1%Z; 2%Z] 2%Z)
    = Some (r', info_state WAITING) /\ state r' = WAITING /\
    position r' = position (robot_toward [1%Z; 2%Z] 2%Z) /\
    current_vertex r' = current_vertex (robot_toward [1%Z; 2%Z] 2%Z) /\
    path r' = path (robot_toward [1%Z; 2%Z] 2%Z) /\
    next_vertex r' = next_vertex (robot_toward [1%Z; 2%Z] 2%Z).
Proof.
  apply (moving_blocked_waits _ _ _ _ _ 1%Z 2%Z "x");
    [reflexivity|reflexivity|reflexivity|discriminate|reflexivity|discriminate].
Defined.

(** Extra: a WAITING robot resumes (becomes MOVING) exactly when its lane
    [(current, next)] is not held by another robot; otherwise it stays
    WAITING. Either way it reports only its state and keeps its position,
    current vertex, path and next vertex. *)
Theorem waiting_resumes_iff_free (norm : Q -> Q -> Q) (dt : Q) (vp : gmap Z (Q * Q)) (occ : gmap (Z * Z) string) (r : Robot) :
  state r = WAITING ->
  exists r', robot_update norm dt vp occ r = Some (r', info_state (state r')) /\
    (state r' = MOVING <-> forall h, lane_lookup occ (current_vertex r) (next_vertex r) = Some h -> h = rid r) /\
    (state r' = WAITING <-> exists h, lane_lookup occ (current_vertex r) (next_vertex r) = Some h /\ h <> rid r) /\
    position r' = position r /\ current_vertex r' = current_vertex r /\
    path r' = path r /\ next_vertex r' = next_vertex r.
Proof.
  intros Hs. unfold robot_update. cbn. rewrite Hs.
  destruct (lane_lookup occ (current_vertex r) (next_vertex r)) as [h|] eqn:Hl; cbn.
  - case_bool_decide as Hh; cbn.
    + exists (set_state (drain dt r) MOVING). split; [reflexivity|]. cbn.
      split; [split; [intros _ h' [= <-]; done|done]|].
      split; [split; [discriminate|intros (h' & [= <-] & ?); done]|].
      repeat split.
    + exists (drain dt r). split; [cbn; rewrite Hs; reflexivity|]. cbn. rewrite Hs.
      split; [split; [discriminate|intros H; exfalso; apply Hh, H; done]|].
      split; [split; [intros _; exists h; done|done]|].
      repeat split.
  - exists (set_state (drain dt r) MOVING). split; [reflexivity|]. cbn.
    split; [split; [intros _ h' H; discriminate|done]|].
    split; [split; [discriminate|intros (h & ? & _); discriminate]|].
    repeat split.
Qed.

Lemma py_max_ge_r a b : b <= py_max a b.
Proof.
  unfold py_max. destruct (Qltb a b) eqn:E; [lra|].
  apply Qnot_lt_le. intros H. apply Qltb_iff in H. congruence.
Qed.

(** Extra: a CHARGING robot (with [dt >= 0]) never loses charge below
    [min(battery, 100)], never goes above 100, and leaves CHARGING only for
    IDLE, which it does exactly when its battery reaches 100. *)
Theorem charging_update norm dt vp occ (r r' : Robot) (info : UpdateInfo) :
  state r = CHARGING -> 0 <= dt ->
  robot_update norm dt vp occ r = Some (r', info) ->
  Qmin (battery r) 100 <= battery r' <= 100 /\
  (state r' = IDLE \/ state r' = CHARGING) /\
  (state r' = IDLE <-> battery r' == 100).
Proof.
  intros Hs Hdt. unfold robot_update. cbn. rewrite Hs. cbn.
  set (x := py_max 0 (battery r - (1 # 100) * dt) + (1 # 10) * dt).
  destruct (py_max_bounds 0 (battery r - (1 # 100) * dt)) as [Hm0 Hm].
  assert (Hx : battery r - (1 # 100) * dt + (1 # 10) * dt <= x).
  { unfold x. pose proof (py_max_ge_r 0 (battery r - (1 # 100) * dt)). lra. }
  clearbody x. unfold py_min. destruct (Qltb x 100) eqn:E.
  - apply Qltb_iff in E.
    destruct (Qle_bool 100 x) eqn:Eb; [apply Qle_bool_iff in Eb; lra|].
    intros [= <- _]. cbn. rewrite Hs. split.
    + split; [|lra]. apply Q.min_le_iff; left; lra.
    + split; [right; done|]. split; [intros Hc; discriminate Hc|intros Hq; exfalso; lra].
  - assert (E' : ~ x < 100) by (intros H; apply Qltb_iff in H; congruence).
    cbn. intros [= <- _]. cbn. split.
    + split; [apply Q.min_le_iff; right; lra|lra].
    + split; [left; done|]. split; [intros _; lra|done].
Qed.

(** Witness of [waiting_resumes_iff_free]: the lane (1,2) is held by
    another robot, so the waiting robot stays put. *)
Lemma waiting_resumes_iff_free_witness :
  exists r', robot_update axis_norm 1 line_positions {[(1%Z, 2%Z) := "x"%string]}
               (set_state (robot_toward [1%Z; 2%Z] 2%Z) WAITING) = Some (r', info_state (state r')) /\
    state r' = WAITING /\ position r' = position (robot_toward [1%Z; 2%Z] 2%Z).
Proof.
  destruct (waiting_resumes_iff_free axis_norm 1 line_positions {[(1%Z, 2%Z) := "x"%string]}
              (set_state (robot_toward [1%Z; 2%Z] 2%Z) WAITING) eq_refl) as (r' & H & _ & [_ Hw] & Hp & _).
  exists r'. split; [exact H|]. split; [|exact Hp].
  apply Hw. exists "x"%string. split; [reflexivity|discriminate].
Defined.

(** Witness of [charging_update]. *)
Lemma charging_update_witness :
  exists r' info, robot_update axis_norm 1 line_positions ∅ charging_robot = Some (r', info) /\
    battery r' <= 100.
Proof.
  destruct (robot_update axis_norm 1 line_positions ∅ charging_robot) as [[r' info]|] eqn:E.
  - exists r', info. split; [reflexivity|].
    refine (proj2 (proj1 (charging_update _ _ _ _ _ _ _ _ _ E))); [reflexivity|].
    unfold Qle; simpl; lia.
  - vm_compute in E. discriminate.
Defined.

(** ** The lane table after a tick *)

Lemma register_lane_usage_present tm i a b :
  lane_occupancy (fst (register_lane_usage tm i a b)) !! (a, b) <> None.
Proof.
  unfold register_lane_usage.
  destruct (lane_occupancy tm !! (a, b)) as [h|] eqn:Hab; [case_bool_decide|]; cbn;
    rewrite ?lookup_insert_eq; congruence.
Qed.

Lemma tick_one_lane_present norm vp ch dt tm i r r' info tm' a b :
  tick_one norm vp ch dt tm i r = Some (r', info, tm') ->
  current_vertex r' = Some a -> next_vertex r' = Some b ->
  lane_occupancy tm' !! (a, b) <> None.
Proof.
  unfold tick_one.
  destruct (robot_update _ _ _ _ _) as [[r1 info1]|]; [|discriminate].
  intros [= <- _ <-] Ha Hb. rewrite Ha, Hb. apply register_lane_usage_present.
Qed.

(** Extra: after a tick of [update_robots], every robot that has both a
    current and a next vertex finds its lane [(current, next)] in the lane
    table (held by itself or by the robot that had it first). *)
Theorem update_robots_lanes_present norm vp ch (dt : Q) (f f' : Fleet) (tm tm' : Traffic)
    (infos : list (string * UpdateInfo)) :
  update_robots norm vp ch dt f tm = Some (f', tm', infos) ->
  forall i r a b, (i, r) ∈ robots f' -> current_vertex r = Some a -> next_vertex r = Some b ->
    lane_occupancy tm' !! (a, b) <> None.
Proof.
  unfold update_robots.
  destruct (update_robots_loop _ _ _ _ _ _) as [[[rs infos'] tm'']|] eqn:Hl; [|discriminate].
  intros [= <- <- _]. cbn. clear infos.
  revert tm rs infos' Hl. induction (robots f) as [|[j r0] rs0 IH]; intros tm rs infos' Hl; cbn in Hl.
  - injection Hl as <- _ <-. intros i r a b Hin. apply elem_of_nil in Hin. done.
  - destruct (tick_one _ _ _ _ _ _ _) as [[[r2 info] tm1]|] eqn:Ht; [|discriminate].
    destruct (update_robots_loop _ _ _ _ _ _) as [[[rs2 infos2] tm2]|] eqn:Hl2; [|discriminate].
    injection Hl as <- _ <-. intros i r a b Hin Ha Hb.
    apply elem_of_cons in Hin as [[= <- <-]|Hin].
    + destruct (lane_occupancy tm1 !! (a, b)) as [h|] eqn:Hh.
      * erewrite (update_robots_loop_keeps_lane _ _ _ _ _ _ _ _ _ _ h Hl2); [discriminate|done].
      * exfalso. eapply tick_one_lane_present; eauto.
    + eapply IH; eauto.
Qed.

(** Witness of [update_robots_lanes_present]: a robot half-way along the
    lane from 1 to 2. *)
Lemma update_robots_lanes_present_witness :
  exists f' tm' infos,
    update_robots axis_norm line_positions line_chargers (1 # 10)
      (add_robot empty_fleet (robot_toward [1%Z; 2%Z] 2%Z)) empty_traffic = Some (f', tm', infos) /\
    forall i r a b, (i, r) ∈ robots f' -> current_vertex r = Some a -> next_vertex r = Some b ->
      lane_occupancy tm' !! (a, b) <> None.
Proof.
  destruct (update_robots axis_norm line_positions line_chargers (1 # 10)
      (add_robot empty_fleet (robot_toward [1%Z; 2%Z] 2%Z)) empty_traffic) as [[[f' tm'] infos]|] eqn:E.
  - exists f', tm', infos. split; [reflexivity|]. exact (update_robots_lanes_present _ _ _ _ _ _ _ _ _ E).
  - vm_compute in E. discriminate.
Defined.

(** ** Queries by position *)

Lemma robot_within_dec p t r :
  Qle_bool 0 t && Qle_bool (dist2 (position r) p) (t * t) = true <-> robot_within p t r.
Proof.
  unfold robot_within. rewrite andb_true_iff, !Qle_bool_iff. done.
Qed.

(** Extra: [get_robot_by_position] returns the id of the first robot, in
    registry order, within the threshold of the point (every robot before
    it is farther), and [None] exactly when no robot is within it. *)
Theorem get_robot_by_position_spec (rs : list (string * Robot)) (p : Q * Q) (t : Q) :
  (forall i, get_robot_by_position rs p t = Some i <->
     exists pre r post, rs = pre ++ (i, r) :: post /\ robot_within p t r /\
       forall j r', (j, r') ∈ pre -> ~ robot_within p t r') /\
  (get_robot_by_position rs p t = None <-> forall j r', (j, r') ∈ rs -> ~ robot_within p t r').
Proof.
  induction rs as [|[j0 r0] rs IH]; cbn.
  - split.
    + intros i. split; [discriminate|]. intros (pre & r & post & Hrs & _). destruct pre; discriminate.
    + split; [intros _ j r' Hin; apply elem_of_nil in Hin; done|done].
  - destruct IH as [IHs IHn].
    destruct (Qle_bool 0 t && Qle_bool (dist2 (position r0) p) (t * t)) eqn:E.
    + apply robot_within_dec in E. split.
      * intros i. split.
        -- intros [= <-]. exists [], r0, rs. split; [done|]. split; [done|].
           intros j r' Hin. apply elem_of_nil in Hin. done.
        -- intros (pre & r & post & Hrs & Hw & Hpre). destruct pre as [|[j1 r1] pre].
           ++ injection Hrs as -> _ _. done.
           ++ injection Hrs as Hj Hr _. subst j1 r1. exfalso. apply (Hpre j0 r0); [apply list_elem_of_here|done].
      * split; [discriminate|]. intros H. exfalso. apply (H j0 r0); [apply list_elem_of_here|done].
    + assert (Hn : ~ robot_within p t r0) by (intros Hw; apply robot_within_dec in Hw; congruence).
      split.
      * intros i. rewrite IHs. split.
        -- intros (pre & r & post & Hrs & Hw & Hpre). exists ((j0, r0) :: pre), r, post.
           split; [rewrite Hrs; done|]. split; [done|].
           intros j r' Hin. apply elem_of_cons in Hin as [[= -> ->]|Hin]; [done|eauto].
        -- intros (pre & r & post & Hrs & Hw & Hpre). destruct pre as [|[j1 r1] pre].
           ++ injection Hrs as -> -> _. done.
           ++ injection Hrs as -> -> Hrs. exists pre, r, post. split; [done|]. split; [done|].
              intros j r' Hin. apply (Hpre j r'). apply list_elem_of_further. done.
      * rewrite IHn. split.
        -- intros H j r' Hin. apply elem_of_cons in Hin as [[= -> ->]|Hin]; [done|eauto].
        -- intros H j r' Hin. apply (H j r'). apply list_elem_of_further. done.
Qed.

Lemma closest_cond_true (best : option (Z * Q)) d t :
  (match best with None => true | Some (_, m) => Qltb d m end) && Qltb 0 t && Qltb d (t * t) = true <->
  (forall v m, best = Some (v, m) -> d < m) /\ 0 < t /\ d < t * t.
Proof.
  rewrite !andb_true_iff, !Qltb_iff. destruct best as [[v0 m0]|].
  - rewrite Qltb_iff. split.
    + intros [[Hd Ht] Hdt]. split; [intros v m [= _ <-]; done|done].
    + intros (Hd & Ht & Hdt). split; [split; [eapply Hd; done|done]|done].
  - split; [intros [[_ Ht] Hdt]; split; [discriminate|done]|intros (_ & Ht & Hdt); done].
Qed.

Lemma closest_loop_spec (nodes : list (Z * (Q * Q))) (p : Q * Q) (t : Q) (best : option (Z * Q)) :
  (closest_loop nodes p t best = None ->
     best = None /\ forall w wp, (w, wp) ∈ nodes -> ~ vertex_within p t wp) /\
  (forall v m, closest_loop nodes p t best = Some (v, m) ->
     (forall w wp, (w, wp) ∈ nodes -> vertex_within p t wp -> m <= dist2 wp p) /\
     (best = Some (v, m) \/
      exists pre vp post, nodes = pre ++ (v, vp) :: post /\ m = dist2 vp p /\
        vertex_within p t vp /\ (forall v0 m0, best = Some (v0, m0) -> m < m0) /\
        forall w wp, (w, wp) ∈ pre -> vertex_within p t wp -> m < dist2 wp p)).
Proof.
  revert best. induction nodes as [|[v0 vp0] nodes IH]; intros best; cbn.
  - split.
    + intros ->. split; [done|]. intros w wp Hin. apply elem_of_nil in Hin. done.
    + intros v m ->. split; [intros w wp Hin; apply elem_of_nil in Hin; done|left; done].
  - set (d := dist2 vp0 p).
    destruct (_ && _ && _) eqn:E.
    + apply closest_cond_true in E as (Hcl & Ht & Hdt).
      destruct (IH (Some (v0, d))) as [IHn IHs]. split.
      * intros Hn. apply IHn in Hn as [Hn _]. discriminate.
      * intros v m Hr. destruct (IHs v m Hr) as [Hall [[= <- <-]|(pre & vp & post & Hnd & Hm & Hw & Hlt & Hpre)]].
        -- split.
           ++ intros w wp Hin Hw. apply elem_of_cons in Hin as [[= <- <-]|Hin]; [unfold d; lra|eauto].
           ++ right. exists [], vp0, nodes. split; [done|]. split; [done|].
              split; [split; done|]. split; [exact Hcl|].
              intros w wp Hin. apply elem_of_nil in Hin. done.
        -- assert (Hmd : m < d) by (eapply Hlt; done). split.
           ++ intros w wp Hin Hw'. apply elem_of_cons in Hin as [[= <- <-]|Hin]; [unfold d in Hmd; lra|eauto].
           ++ right. exists ((v0, vp0) :: pre), vp, post. split; [rewrite Hnd; done|].
              split; [done|]. split; [done|]. split.
              ** intros v1 m1 Hb. specialize (Hcl v1 m1 Hb). lra.
              ** intros w wp Hin Hw'. apply elem_of_cons in Hin as [[= <- <-]|Hin]; [unfold d in Hmd; lra|eauto].
    + assert (Hnc : vertex_within p t vp0 -> exists v1 m1, best = Some (v1, m1) /\ m1 <= d).
      { intros [Ht Hdt]. destruct best as [[v1 m1]|].
        - exists v1, m1. split; [done|]. apply Qnot_lt_le. intros Hlt.
          assert (Hc : Qltb d m1 && Qltb 0 t && Qltb d (t * t) = true)
            by (apply (closest_cond_true (Some (v1, m1))); split; [intros ? ? [= _ <-]; done|done]).
          congruence.
        - exfalso. assert (Hc : true && Qltb 0 t && Qltb d (t * t) = true)
            by (apply (closest_cond_true None); split; [discriminate|done]).
          congruence. }
      destruct (IH best) as [IHn IHs]. split.
      * intros Hn. apply IHn in Hn as [-> Hrest]. split; [done|].
        intros w wp Hin Hw. apply elem_of_cons in Hin as [[= <- <-]|Hin]; [|eapply Hrest; eauto].
        destruct (Hnc Hw) as (? & ? & ? & _). discriminate.
      * intros v m Hr. destruct (IHs v m Hr) as [Hall Hor]. split.
        -- intros w wp Hin Hw. apply elem_of_cons in Hin as [[= <- <-]|Hin]; [|eauto].
           destruct (Hnc Hw) as (v1 & m1 & Hb & Hm1).
           destruct Hor as [Hb'|(pre & vp & post & _ & _ & _ & Hlt & _)].
           ++ rewrite Hb' in Hb. injection Hb as _ <-. done.
           ++ specialize (Hlt v1 m1 Hb). unfold d in Hm1. lra.
        -- destruct Hor as [Hb|(pre & vp & post & Hnd & Hm & Hw & Hlt & Hpre)]; [left; done|].
           right. exists ((v0, vp0) :: pre), vp, post. split; [rewrite Hnd; done|].
           split; [done|]. split; [done|]. split; [done|].
           intros w wp Hin Hw'. apply elem_of_cons in Hin as [[= <- <-]|Hin]; [|eauto].
           destruct (Hnc Hw') as (v1 & m1 & Hb & Hm1). specialize (Hlt v1 m1 Hb). unfold d in Hm1. lra.
Qed.

(** Extra: [get_vertex_id_by_position] returns [None] exactly when no
    vertex lies strictly within the threshold of the point; otherwise it
    returns a vertex within the threshold at minimal distance, the first
    one in graph order among those at that distance. *)
Theorem get_vertex_id_by_position_spec (nodes : list (Z * (Q * Q))) (p : Q * Q) (t : Q) :
  (get_vertex_id_by_position nodes p t = None <->
     forall w wp, (w, wp) ∈ nodes -> ~ vertex_within p t wp) /\
  (forall v, get_vertex_id_by_position nodes p t = Some v ->
     exists pre vp post, nodes = pre ++ (v, vp) :: post /\ vertex_within p t vp /\
       (forall w wp, (w, wp) ∈ nodes -> vertex_within p t wp -> dist2 vp p <= dist2 wp p) /\
       forall w wp, (w, wp) ∈ pre -> vertex_within p t wp -> dist2 vp p < dist2 wp p).
Proof.
  unfold get_vertex_id_by_position.
  destruct (closest_loop_spec nodes p t None) as [Hn Hs].
  destruct (closest_loop nodes p t None) as [[v m]|] eqn:E; cbn.
  - destruct (Hs v m eq_refl) as [Hall [Hb|(pre & vp & post & Hnd & Hm & Hw & _ & Hpre)]];
      [discriminate|]. split.
    + split; [discriminate|]. intros H. exfalso. apply (H v vp); [rewrite Hnd; apply elem_of_app; right; apply list_elem_of_here|done].
    + intros v' [= <-]. exists pre, vp, post. subst m. split; [done|]. split; [done|]. split; done.
  - split.
    + split; [intros _; apply Hn; done|done].
    + intros v Hv. discriminate.
Qed.

(** Extra: the charger list built by [NavGraph.load_graph] holds exactly
    the indices of the vertices flagged [is_charger], in increasing order. *)
Theorem load_chargers_spec (vertices : list (Q * Q * bool)) :
  (forall i : nat, Z.of_nat i ∈ load_chargers vertices <-> exists x y, vertices !! i = Some (x, y, true)) /\
  (forall z, z ∈ load_chargers vertices -> (0 <= z)%Z) /\
  StronglySorted Z.lt (load_chargers vertices).
Proof.
  assert (Hgen : forall s, (forall z, z ∈ chargers_from s vertices <->
            exists i x y, z = (s + Z.of_nat i)%Z /\ vertices !! i = Some (x, y, true)) /\
          StronglySorted Z.lt (chargers_from s vertices)).
  { induction vertices as [|[[x y] c] vs IH]; intros s; cbn.
    - split; [|constructor]. intros z. split; [intros Hin; apply elem_of_nil in Hin; done|].
      intros (i & ? & ? & _ & Hl). done.
    - destruct (IH (s + 1)%Z) as [IHm IHs].
      assert (Hm : forall z, z ∈ chargers_from (s + 1) vs <->
                exists i x1 y1, i <> 0%nat /\ z = (s + Z.of_nat i)%Z /\ ((x, y, c) :: vs) !! i = Some (x1, y1, true)).
      { intros z. rewrite IHm. split.
        - intros (i & x' & y' & -> & Hl). exists (S i), x', y'. split; [done|]. split; [lia|done].
        - intros (i & x' & y' & Hi & -> & Hl). destruct i as [|i]; [done|].
          exists i, x', y'. split; [lia|done]. }
      destruct c.
      + split.
        * intros z. rewrite elem_of_cons, Hm. split.
          -- intros [->|(i & x' & y' & _ & Hz & Hl)]; [exists 0%nat, x, y; split; [lia|done]|eauto].
          -- intros (i & x' & y' & Hz & Hl). destruct i as [|i]; [left; lia|].
             right. exists (S i), x', y'. done.
        * constructor; [done|]. apply Forall_forall. intros z Hz.
          apply Hm in Hz as (i & ? & ? & Hi & -> & _). lia.
      + split; [|done]. intros z. rewrite Hm. split.
        -- intros (i & x' & y' & _ & Hz & Hl). eauto.
        -- intros (i & x' & y' & Hz & Hl). destruct i as [|i]; [done|].
           exists (S i), x', y'. done. }
  destruct (Hgen 0%Z) as [Hm Hs]. unfold load_chargers. split; [|split; [|done]].
  - intros i. rewrite Hm. split.
    + intros (j & x & y & Hj & Hl). assert (j = i) as -> by lia. eauto.
    + intros (x & y & Hl). exists i, x, y. split; [lia|done].
  - intros z Hz. apply Hm in Hz as (i & ? & ? & -> & _). lia.
Qed.
